(** * Presence matrices for OncoPrint: the notebook [6.generate-oncoprint-data]

    A shallow embedding of the notebook's matrix builder
    ([process_variants]), of the construction of its feature lists and of
    the inline amino-acid-change pass, followed by the properties of the
    written description that were checked against it.

    Conventions of the embedding:
    - a pandas table read from disk is a finite map from column labels to
      the column's values, all values being strings;
    - a Python exception is a value of [error] in the [result] monad; the
      first exception aborts the computation, as in the notebook;
    - [os.listdir] and the iteration over a Python [set] yield their
      elements in an order the code does not control: both orders are
      explicit arguments of the embedding. *)

From Stdlib Require Import Ascii String.
From stdpp Require Import gmap strings list sorting.

Open Scope string_scope.
Open Scope list_scope.

(** ** Python string methods used by the notebook *)

Module PyStr.

(** [is_prefix p s]: [s.startswith(p)]. *)
Fixpoint is_prefix (p s : string) : bool :=
  match p, s with
  | EmptyString, _ => true
  | String a p', String b s' => if decide (a = b) then is_prefix p' s' else false
  | String _ _, EmptyString => false
  end.

(** [str.replace] with an empty [old]: [new] is put before every
    character and once more at the end. *)
Fixpoint replace_empty (new s : string) : string :=
  match s with
  | EmptyString => new
  | String c s' => new +:+ String c (replace_empty new s')
  end.

(** [str.replace] with a non-empty [old]: a left-to-right scan for
    non-overlapping occurrences.  [skip] counts the characters of the
    occurrence found last that are still to be passed over. *)
Fixpoint replace_scan (old new : string) (skip : nat) (s : string) : string :=
  match s with
  | EmptyString => EmptyString
  | String c s' =>
      match skip with
      | S k => replace_scan old new k s'
      | O =>
          if is_prefix old s
          then new +:+ replace_scan old new (String.length old - 1) s'
          else String c (replace_scan old new 0 s')
      end
  end.

(** [s.replace(old, new)] *)
Definition replace (s old new : string) : string :=
  match old with
  | EmptyString => replace_empty new s
  | String _ _ => replace_scan old new 0 s
  end.

(** [s.split(sep)[0]] for a one-character separator: the part of [s]
    before the first [sep], all of [s] when there is none. *)
Fixpoint split_head (sep : Ascii.ascii) (s : string) : string :=
  match s with
  | EmptyString => EmptyString
  | String c s' => if decide (c = sep) then EmptyString else String c (split_head sep s')
  end.

End PyStr.

(** ** Exceptions *)

(** The exceptions the notebook can meet: a path that does not exist
    ([os.listdir], [pd.read_table]), a file that [pd.read_table] cannot
    parse, and a label that is absent from a table or from a dict. *)
Inductive error : Type :=
  | FileNotFoundError
  | ParserError
  | KeyError (key : string).

Inductive result (A : Type) : Type :=
  | Ok (a : A)
  | Raise (e : error).
Arguments Ok {A} a.
Arguments Raise {A} e.

Global Instance result_ret : MRet result := fun A a => Ok a.
Global Instance result_bind : MBind result := fun A B f r =>
  match r with
  | Ok a => f a
  | Raise e => Raise e
  end.
Global Instance result_fmap : FMap result := fun A B f r =>
  match r with
  | Ok a => Ok (f a)
  | Raise e => Raise e
  end.

(** The value of a computation that returned, [None] when it raised. *)
Definition returned {A} (r : result A) : option A :=
  match r with
  | Ok a => Some a
  | Raise _ => None
  end.

(** ** Tables *)

(** A table as [pd.read_table] returns it: column label to column values,
    the values of one row sitting at the same position in every column. *)
Abbreviation frame := (gmap string (list string)).

(** [df[label]] *)
Definition getitem (df : frame) (label : string) : result (list string) :=
  match df !! label with
  | Some col => Ok col
  | None => Raise (KeyError label)
  end.

(** [series != value] *)
Definition series_ne (col : list string) (value : string) : list bool :=
  (fun x => bool_decide (x ≠ value)) <$> col.

(** Selection of the positions at which a boolean mask is [True]. *)
Fixpoint take_mask {A} (mask : list bool) (l : list A) : list A :=
  match mask, l with
  | b :: mask', x :: l' => if b then x :: take_mask mask' l' else take_mask mask' l'
  | _, _ => []
  end.

(** [df[mask]] *)
Definition getitem_mask (df : frame) (mask : list bool) : frame :=
  take_mask mask <$> df.

(** A cell of an output matrix: the integers 0 and 1 in COSMIC mode, the
    strings [''] and ['MUT;'] in gene mode. *)
Inductive cell : Type :=
  | CInt (n : Z)
  | CStr (s : string).

Global Instance cell_eq_dec : EqDecision cell.
Proof. solve_decision. Defined.

(** An output matrix: the name of the index, the column labels and the
    rows, each a label of the index with its cells. *)
Record matrix : Type := Matrix {
  index_name : option string;
  columns : list string;
  rows : list (string * list cell)
}.

(** [pd.DataFrame(data, index=index, columns=columns)] for a list of rows
    that all have as many cells as there are columns. *)
Definition DataFrame (data : list (list cell)) (index columns : list string) : matrix :=
  Matrix None columns (zip index data).

(** Insertion of a labelled row in a list of rows ordered by label. *)
Fixpoint insert_row {A} (r : string * A) (l : list (string * A)) : list (string * A) :=
  match l with
  | [] => [r]
  | r' :: l' => if decide (String.le r.1 r'.1) then r :: l else r' :: insert_row r l'
  end.

(** The rows in ascending order of their labels, strings being compared
    character by character on their codes.  Rows with the same label
    keep their order: pandas returns a frame whose index is ascending
    already as it is, and otherwise leaves the order of rows with equal
    labels to the sorting routine; no property below depends on that
    order except where two rows with one label are shown. *)
Definition sort_rows {A} (l : list (string * A)) : list (string * A) :=
  foldr insert_row [] l.

(** [df.sort_index()] *)
Definition sort_index (m : matrix) : matrix :=
  Matrix (index_name m) (columns m) (sort_rows (rows m)).

(** [df.index.name = name] *)
Definition set_index_name (name : string) (m : matrix) : matrix :=
  Matrix (Some name) (columns m) (rows m).

(** ** The file system the notebook reads *)

(** A file of a variant directory: its name, and what
    [pd.read_table(path, index_col=0)] does on it (the table it returns,
    or the exception it raises on a file it cannot parse). *)
Record variant_file : Type := VariantFile {
  file_name : string;
  read_table : result frame
}.

(** [os.listdir(path)]: the files of the directory in the order the
    operating system enumerates them; [None] stands for a path that does
    not exist. *)
Definition listdir (variant_dir : option (list variant_file)) : result (list variant_file) :=
  match variant_dir with
  | Some files => Ok files
  | None => Raise FileNotFoundError
  end.

(** [d[key]] on a Python dict *)
Definition dict_getitem (d : gmap string string) (key : string) : result string :=
  match d !! key with
  | Some v => Ok v
  | None => Raise (KeyError key)
  end.

(** A [for] loop over a list whose body may raise: the state of the loop
    is threaded through the iterations and the first exception ends it. *)
Fixpoint for_each {S A} (body : S → A → result S) (s : S) (l : list A) : result S :=
  match l with
  | [] => Ok s
  | x :: l' => s' ← body s x; for_each body s' l'
  end.

(** ** The matrix builder *)

Section process_variants.
Context (focus_variants : list string) (strip_text : string)
        (process_cosmic : bool) (id_updater : option (gmap string string)).

(** The membership list of one table.  The column is looked up once
    for every element of [focus_variants], as the condition of the list
    comprehension is. *)
Definition variant_class (variant_sub_df : frame) : result (list cell) :=
  if process_cosmic
  then mapM (fun x => col ← getitem variant_sub_df "cosmic70";
                      mret (if bool_decide (x ∈ col) then CInt 1 else CInt 0))
            focus_variants
  else mapM (fun x => col ← getitem variant_sub_df "Gene.refGene";
                      mret (if bool_decide (x ∈ col) then CStr "MUT;" else CStr ""))
            focus_variants.

(** The identifier appended to [case_ids] for a file name. *)
Definition sample_id (variant_file : string) : result string :=
  let sample_id := PyStr.replace variant_file strip_text "" in
  match id_updater with
  | None => mret sample_id
  | Some d =>
      let key := PyStr.split_head "_"%char variant_file in
      value ← dict_getitem d key;
      mret (PyStr.replace variant_file key value)
  end.

(** One iteration of the loop over the directory, on the two
    accumulators [variant_assign] and [case_ids]. *)
Definition loop_body (acc : list (list cell) * list string) (f : variant_file)
  : result (list (list cell) * list string) :=
  let '(variant_assign, case_ids) := acc in
  variant_df ← read_table f;
  cosmic70 ← getitem variant_df "cosmic70";
  let variant_sub_df := getitem_mask variant_df (series_ne cosmic70 ".") in
  variant_class ← variant_class variant_sub_df;
  let variant_assign := variant_assign ++ [variant_class] in
  sample_id ← sample_id (file_name f);
  mret (variant_assign, case_ids ++ [sample_id]).

Definition process_variants (variant_dir : option (list variant_file)) : result matrix :=
  files ← listdir variant_dir;
  '(variant_assign, case_ids) ← for_each loop_body ([], []) files;
  let output_df := sort_index (DataFrame variant_assign case_ids focus_variants) in
  mret (set_index_name "Case.ID" output_df).

End process_variants.

(** ** Cells of the notebook *)

(** A cell computes from the values read so far and may write files.  The
    files written are a map from paths to the matrices written there: the
    text [to_csv] produces is a function of the matrix (its header line is
    the name of the index followed by the column labels in order, and
    every row follows in order).  An exception ends the run: the cells
    after it are not run and the files keep the state they had. *)
Definition script (A : Type) : Type :=
  gmap string matrix → gmap string matrix * result A.

Global Instance script_ret : MRet script := fun A a written => (written, Ok a).
Global Instance script_bind : MBind script := fun A B f c written =>
  match c written with
  | (written', Ok a) => f a written'
  | (written', Raise e) => (written', Raise e)
  end.

(** A computation that writes nothing. *)
Definition compute {A} (r : result A) : script A := fun written => (written, r).

(** [df.to_csv(path, sep='\t')] *)
Definition to_csv (df : matrix) (path : string) : script unit :=
  fun written => (<[path := df]> written, Ok tt).

(** ** Feature collections *)

(** [x] is counted as often as it occurs in [l]. *)
Definition occurrences (x : string) (l : list string) : nat :=
  length (filter (fun y => y = x) l).

(** The distinct values of a list in the order of their first occurrence. *)
Fixpoint distinct (seen l : list string) : list string :=
  match l with
  | [] => []
  | x :: l' => if decide (x ∈ seen) then distinct seen l' else x :: distinct (x :: seen) l'
  end.

Fixpoint insert_count (c : string * nat) (l : list (string * nat)) : list (string * nat) :=
  match l with
  | [] => [c]
  | c' :: l' => if decide (c'.2 ≤ c.2)%nat then c :: l else c' :: insert_count c l'
  end.

(** [series.value_counts()]: every distinct value with the number of its
    occurrences, the most frequent first.  pandas does not fix the order
    of values that occur equally often; here they keep the order of their
    first occurrence.  The properties of the gene lists below hold for
    every order of such ties, and no property compares the gene lists of
    two runs: where two runs are compared, the feature list is given. *)
Definition value_counts (col : list string) : list (string * nat) :=
  foldr insert_count [] ((fun x => (x, occurrences x col)) <$> distinct [] col).

Definition top_n : nat := 50.

(** [paad_genes]: the index of the first [top_n] entries of the value
    counts of the gene column, and the two genes added by hand. *)
Definition paad_genes (cosmic_all_df : frame) : result (list string) :=
  genes ← getitem cosmic_all_df "Gene.refGene";
  let paad_genes := take top_n (value_counts genes).*1 in
  mret (paad_genes ++ ["ATM"; "RNF43"]).

(** [unique_cosmic_ids = set(cosmic_all_df['cosmic70'])] *)
Definition unique_cosmic_ids (cosmic_all_df : frame) : result (gset string) :=
  ids ← getitem cosmic_all_df "cosmic70";
  mret (list_to_set ids).

(** The order in which a Python [set] of strings yields its elements
    depends on the hashes of the strings, which the interpreter salts
    anew at every start.  The embedding takes the order as a function
    [iter] from sets to lists, of which it is only known that it
    enumerates the set. *)
Definition enumeration (iter : gset string → list string) : Prop :=
  ∀ X, NoDup (iter X) ∧ ∀ x, x ∈ iter X ↔ x ∈ X.

(** ** The four calls of the builder *)

Definition replicate_strip_text : string := "_001_processed_variants.tsv.bz2".
Definition merged_strip_text : string := "_processed_variants.tsv.bz2".

Section calls.
Context (iter : gset string → list string).
Context (cosmic_all_df : frame).
Context (processed_vcfs processed_merged_vcfs : option (list variant_file)).

Definition replicate_oncoprint_df : result matrix :=
  paad_genes ← paad_genes cosmic_all_df;
  process_variants paad_genes replicate_strip_text false None processed_vcfs.

Definition merged_oncoprint_df : result matrix :=
  paad_genes ← paad_genes cosmic_all_df;
  process_variants paad_genes merged_strip_text false None processed_merged_vcfs.

Definition replicate_cosmic_df : result matrix :=
  unique_cosmic_ids ← unique_cosmic_ids cosmic_all_df;
  process_variants (iter unique_cosmic_ids) replicate_strip_text true None processed_vcfs.

Definition merged_cosmic_df : result matrix :=
  unique_cosmic_ids ← unique_cosmic_ids cosmic_all_df;
  process_variants (iter unique_cosmic_ids) merged_strip_text true None processed_merged_vcfs.

(** The cells that build and write the four matrices, in the order of
    the notebook. *)
Definition builder_cells : script unit :=
  df ← compute replicate_oncoprint_df;
  _ ← to_csv df "results/oncoprint_replicates.tsv";
  df ← compute merged_oncoprint_df;
  _ ← to_csv df "results/oncoprint_merged.tsv";
  df ← compute replicate_cosmic_df;
  _ ← to_csv df "results/cosmic_similarity_replicates.tsv";
  df ← compute merged_cosmic_df;
  to_csv df "results/cosmic_similarity_merged.tsv".

End calls.

(** ** The amino-acid-change pass *)

(** [series == value] *)
Definition series_eq (col : list string) (value : string) : list bool :=
  (fun x => bool_decide (x = value)) <$> col.

Section prefiltered.
Context (iter : gset string → list string).

(** One iteration of the loop over [set(cosmic_prefiltered_df['final_id'])]. *)
Definition consensus_body (cosmic_prefiltered_df : frame) (unique_mutations : list string)
    (acc : list string * list (list cell)) (sample_id : string)
  : result (list string * list (list cell)) :=
  let '(case_id_consensus, cosmic_similarity_consensus_list) := acc in
  final_id ← getitem cosmic_prefiltered_df "final_id";
  let variant_sub_df := getitem_mask cosmic_prefiltered_df (series_eq final_id sample_id) in
  cosmic_class ← mapM (fun x => col ← getitem variant_sub_df "AAChange.refGene";
                                mret (if bool_decide (x ∈ col) then CInt 1 else CInt 0))
                      unique_mutations;
  mret (case_id_consensus ++ [sample_id],
        cosmic_similarity_consensus_list ++ [cosmic_class]).

(** The cells from the restriction to amino-acid changes to the matrix
    [cosmic_common_consensus_df]. *)
Definition cosmic_common_consensus_df (cosmic_prefiltered_df : frame) : result matrix :=
  aachange ← getitem cosmic_prefiltered_df "AAChange.refGene";
  let cosmic_prefiltered_df := getitem_mask cosmic_prefiltered_df (series_ne aachange ".") in
  aachange ← getitem cosmic_prefiltered_df "AAChange.refGene";
  let unique_mutations := iter (list_to_set aachange) in
  final_id ← getitem cosmic_prefiltered_df "final_id";
  '(case_id_consensus, cosmic_similarity_consensus_list) ←
    for_each (consensus_body cosmic_prefiltered_df unique_mutations) ([], [])
             (iter (list_to_set final_id));
  let df := DataFrame cosmic_similarity_consensus_list case_id_consensus unique_mutations in
  mret (set_index_name "Case.ID" df).

End prefiltered.

(** ** Vocabulary of the properties *)

(** The column whose values are tested, the cell written for a feature
    that is found and the cell written for one that is not. *)
Definition relevant_column (process_cosmic : bool) : string :=
  if process_cosmic then "cosmic70" else "Gene.refGene".
Definition found (process_cosmic : bool) : cell :=
  if process_cosmic then CInt 1 else CStr "MUT;".
Definition missing (process_cosmic : bool) : cell :=
  if process_cosmic then CInt 0 else CStr "".

(** [x] occurs in column [label] of the table. *)
Definition contains (df : frame) (label x : string) : Prop :=
  ∃ col, df !! label = Some col ∧ x ∈ col.

(** [x] occurs in column [label] in a row whose COSMIC annotation is not
    the sentinel ['.']. *)
Definition flagged (df : frame) (label x : string) : Prop :=
  ∃ cosmic70 col (i : nat) c,
    df !! "cosmic70" = Some cosmic70 ∧ df !! label = Some col ∧
    cosmic70 !! i = Some c ∧ c ≠ "." ∧ col !! i = Some x.

(** What one file contributes to the matrix: its label and its cells. *)
Definition file_row (focus_variants : list string) (strip_text : string)
    (process_cosmic : bool) (id_updater : option (gmap string string))
    (f : variant_file) : result (string * list cell) :=
  variant_df ← read_table f;
  cosmic70 ← getitem variant_df "cosmic70";
  let variant_sub_df := getitem_mask variant_df (series_ne cosmic70 ".") in
  variant_class ← variant_class focus_variants process_cosmic variant_sub_df;
  sample_id ← sample_id strip_text id_updater (file_name f);
  mret (sample_id, variant_class).

(** A file on which the loop of the builder raises before it derives an
    identifier: [pd.read_table] raises on it, or its table has no column
    [cosmic70], or, in gene mode with a feature to look for, no column
    [Gene.refGene]. *)
Definition unusable (focus_variants : list string) (process_cosmic : bool)
    (f : variant_file) : Prop :=
  match read_table f with
  | Raise _ => True
  | Ok df =>
      df !! "cosmic70" = None ∨
      (process_cosmic = false ∧ focus_variants ≠ [] ∧ df !! "Gene.refGene" = None)
  end.

(** What one value of [final_id] contributes to the matrix of the
    amino-acid-change pass. *)
Definition consensus_row (cosmic_prefiltered_df : frame) (unique_mutations : list string)
    (sample_id : string) : result (string * list cell) :=
  final_id ← getitem cosmic_prefiltered_df "final_id";
  let variant_sub_df := getitem_mask cosmic_prefiltered_df (series_eq final_id sample_id) in
  cosmic_class ← mapM (fun x => col ← getitem variant_sub_df "AAChange.refGene";
                                mret (if bool_decide (x ∈ col) then CInt 1 else CInt 0))
                      unique_mutations;
  mret (sample_id, cosmic_class).

(** The order of value counts: the larger count first. *)
Definition count_ge (c c' : string * nat) : Prop := (c'.2 ≤ c.2)%nat.

(** In COSMIC mode, what one file contributes before the features are
    known: its label and, for any identifier, the cell it gets. *)
Definition cosmic_membership (strip_text : string)
    (id_updater : option (gmap string string)) (f : variant_file)
  : result (string * (string → cell)) :=
  variant_df ← read_table f;
  cosmic70 ← getitem variant_df "cosmic70";
  sample_id ← sample_id strip_text id_updater (file_name f);
  mret (sample_id,
        fun x => if bool_decide (x ∈ take_mask (series_ne cosmic70 ".") cosmic70)
                 then CInt 1 else CInt 0).

(** Two matrices that differ at most in the order of their columns: the
    same index, the same column labels up to order, and in every row the
    same cell under the same column label. *)
Definition same_cells (m1 m2 : matrix) : Prop :=
  index_name m1 = index_name m2 ∧
  columns m1 ≡ₚ columns m2 ∧
  (rows m1).*1 = (rows m2).*1 ∧
  ∀ (i j1 j2 : nat) r1 r2 F,
    rows m1 !! i = Some r1 → rows m2 !! i = Some r2 →
    columns m1 !! j1 = Some F → columns m2 !! j2 = Some F →
    r1.2 !! j1 = r2.2 !! j2.

(** The order of rows by label. *)
Definition label_le {A} (r r' : string * A) : Prop := String.le r.1 r'.1.

(** ** Further cells and vocabulary *)

(** [paad_prefiltered_genes]: the index of the first [top_n] entries of
    the value counts of the gene column of the prefiltered table. *)
Definition paad_prefiltered_genes (cosmic_prefiltered_df : frame) : result (list string) :=
  genes ← getitem cosmic_prefiltered_df "Gene.refGene";
  mret (take top_n (value_counts genes).*1).

(** [old in s] on Python strings: [old] occurs somewhere in [s]. *)
Fixpoint str_contains (old s : string) : bool :=
  PyStr.is_prefix old s ||
  match s with
  | EmptyString => false
  | String _ s' => str_contains old s'
  end.

(** [s[k:]] *)
Fixpoint str_from (k : nat) (s : string) : string :=
  match k, s with
  | S k', String _ s' => str_from k' s'
  | _, _ => s
  end.

(** Two files that the builder cannot tell apart: the same name, and
    either the same exception of [pd.read_table] or tables with the same
    column [cosmic70] and the same column [label]. *)
Definition same_for_builder (label : string) (f f' : variant_file) : Prop :=
  file_name f = file_name f' ∧
  match read_table f, read_table f' with
  | Ok df, Ok df' => df !! "cosmic70" = df' !! "cosmic70" ∧ df !! label = df' !! label
  | Raise e, Raise e' => e = e'
  | _, _ => False
  end.

(** * Properties *)

(** ** The exception monad *)

Lemma bind_Ok {A B} (f : A → result B) (r : result A) (b : B) :
  r ≫= f = Ok b ↔ ∃ a, r = Ok a ∧ f a = Ok b.
Proof.
  destruct r as [a|e]; simpl; split.
  - intros H. exists a. done.
  - intros (a' & [= ->] & H). done.
  - done.
  - intros (a' & H & _). done.
Qed.

Lemma mapM_Ok {A B} (f : A → result B) (l : list A) (k : list B) :
  mapM f l = Ok k ↔ Forall2 (fun x y => f x = Ok y) l k.
Proof.
  revert k. induction l as [|x l IH]; intros k; simpl.
  - split.
    + intros [= <-]. constructor.
    + intros H. inv H. done.
  - split.
    + intros H. apply bind_Ok in H as (y & Hy & H).
      apply bind_Ok in H as (k' & Hk' & [= <-]).
      constructor; [done|]. by apply IH.
    + intros H. inv H. rewrite H2. simpl.
      match goal with H : Forall2 _ l _ |- _ => apply IH in H; rewrite H end.
      done.
Qed.

Lemma mapM_length {A B} (f : A → result B) (l : list A) (k : list B) :
  mapM f l = Ok k → length k = length l.
Proof. intros H%mapM_Ok. symmetry. by eapply Forall2_length. Qed.

Lemma mapM_Raise {A B} (f : A → result B) (l : list A) (e : error) :
  mapM f l = Raise e → ∃ x, x ∈ l ∧ f x = Raise e.
Proof.
  induction l as [|x l IH]; simpl; [done|].
  destruct (f x) as [y|e'] eqn:Hx; simpl.
  - destruct (mapM f l) as [k|e'']; simpl; [done|].
    intros [= ->]. destruct IH as (x' & ? & ?); [done|].
    exists x'. split; [by right|done].
  - intros [= ->]. exists x. split; [by left|done].
Qed.

Lemma mapM_raises {A B} (f : A → result B) (l : list A) (x : A) (e : error) :
  x ∈ l → f x = Raise e → ∃ e', mapM f l = Raise e'.
Proof.
  intros Hin Hx. induction l as [|z l IH]; [by inv Hin|].
  simpl. destruct (f z) as [y|e'] eqn:Hz; simpl; [|by eexists].
  inv Hin; [congruence|].
  destruct IH as [e'' ->]; [done|]. simpl. by eexists.
Qed.

Lemma mapM_Permutation {A B} (f : A → result B) (l1 l2 : list A) :
  l1 ≡ₚ l2 →
  match mapM f l1, mapM f l2 with
  | Ok k1, Ok k2 => k1 ≡ₚ k2
  | Raise _, Raise _ => True
  | _, _ => False
  end.
Proof.
  induction 1 as [|x l1 l2 _ IH|x y l|l1 l2 l3 _ IH1 _ IH2]; simpl.
  - done.
  - destruct (f x); simpl; [|done].
    destruct (mapM f l1), (mapM f l2); simpl; try done. by constructor.
  - destruct (f x), (f y); simpl; try done;
      destruct (mapM f l); simpl; try done. apply perm_swap.
  - destruct (mapM f l1), (mapM f l2), (mapM f l3); try done. by etrans.
Qed.

Lemma mapM_cons {A B} (f : A → result B) (x : A) (l : list A) :
  mapM f (x :: l) = y ← f x; k ← mapM f l; mret (y :: k).
Proof. reflexivity. Qed.

Lemma mapM_fmap {A B C} (g : A → B) (f : B → result C) (l : list A) :
  mapM f (g <$> l) = mapM (f ∘ g) l.
Proof.
  induction l as [|x l IH]; [done|].
  rewrite fmap_cons, !mapM_cons, IH. done.
Qed.

Lemma mapM_ext_in {A B} (f g : A → result B) (l : list A) :
  (∀ x, x ∈ l → f x = g x) → mapM f l = mapM g l.
Proof.
  induction l as [|x l IH]; intros H; [done|].
  rewrite !mapM_cons, (H x), IH; [done| |by left].
  intros z Hz. apply H. by right.
Qed.

(** ** The loop is a map over the files *)

Lemma for_each_loop_body focus strip cosmic upd files variant_assign case_ids :
  for_each (loop_body focus strip cosmic upd) (variant_assign, case_ids) files =
  rs ← mapM (file_row focus strip cosmic upd) files;
  mret (variant_assign ++ rs.*2, case_ids ++ rs.*1).
Proof.
  revert variant_assign case_ids.
  induction files as [|f files IH]; intros variant_assign case_ids.
  - simpl. by rewrite !app_nil_r.
  - rewrite mapM_cons. simpl. unfold file_row.
    destruct (read_table f) as [df|]; simpl; [|done].
    destruct (getitem df "cosmic70") as [c|]; simpl; [|done].
    destruct (variant_class _ _ _) as [vc|]; simpl; [|done].
    destruct (sample_id _ _ _) as [sid|]; simpl; [|done].
    rewrite IH.
    destruct (mapM _ files) as [rs|]; simpl; [|done].
    by rewrite <-!app_assoc.
Qed.

Lemma zip_fst_snd {A B} (l : list (A * B)) : zip l.*1 l.*2 = l.
Proof. induction l as [|[a b] l IH]; csimpl; [done|]. by f_equal. Qed.

(** The matrix is built from the rows of the files, sorted by label. *)
Lemma process_variants_Ok focus strip cosmic upd files m :
  process_variants focus strip cosmic upd (Some files) = Ok m ↔
  ∃ rs, mapM (file_row focus strip cosmic upd) files = Ok rs ∧
        m = Matrix (Some "Case.ID") focus (sort_rows rs).
Proof.
  unfold process_variants. simpl. rewrite for_each_loop_body.
  destruct (mapM _ files) as [rs|e]; simpl.
  - unfold set_index_name, sort_index, DataFrame. simpl. rewrite zip_fst_snd.
    split.
    + intros [= <-]. by exists rs.
    + intros (rs' & [= <-] & ->). done.
  - split; [done|]. intros (rs' & ? & _). done.
Qed.

Lemma process_variants_Raise focus strip cosmic upd files e :
  process_variants focus strip cosmic upd (Some files) = Raise e ↔
  mapM (file_row focus strip cosmic upd) files = Raise e.
Proof.
  unfold process_variants. simpl. rewrite for_each_loop_body.
  destruct (mapM _ files) as [rs|e']; simpl; [done|].
  split; intros [= ->]; done.
Qed.

(** ** Sorting by label *)

Lemma insert_row_Permutation {A} (r : string * A) l : insert_row r l ≡ₚ r :: l.
Proof.
  induction l as [|r' l IH]; simpl; [done|].
  case_decide; [done|]. rewrite IH. apply perm_swap.
Qed.

Lemma sort_rows_Permutation {A} (l : list (string * A)) : sort_rows l ≡ₚ l.
Proof.
  induction l as [|r l IH]; simpl; [done|].
  rewrite insert_row_Permutation. by constructor.
Qed.

Global Instance label_le_trans {A} : Transitive (@label_le A).
Proof. intros x y z. unfold label_le. apply transitivity. Qed.

Lemma insert_row_Sorted {A} (r : string * A) l :
  StronglySorted label_le l → StronglySorted label_le (insert_row r l).
Proof.
  induction 1 as [|r' l Hl IH Hr']; simpl.
  - repeat constructor.
  - case_decide as Hle.
    + constructor; [by constructor|].
      constructor; [done|].
      eapply Forall_impl; [exact Hr'|]. intros z Hz. by etrans.
    + constructor; [done|].
      rewrite insert_row_Permutation. constructor; [|done].
      destruct (total String.le r.1 r'.1); done.
Qed.

Lemma sort_rows_Sorted {A} (l : list (string * A)) : StronglySorted label_le (sort_rows l).
Proof.
  induction l as [|r l IH]; simpl; [constructor|]. by apply insert_row_Sorted.
Qed.

Lemma NoDup_fst_inj {A B} (l : list (A * B)) x y :
  NoDup l.*1 → x ∈ l → y ∈ l → x.1 = y.1 → x = y.
Proof.
  induction l as [|z l IH]; intros Hnd Hx Hy Heq; [by inv Hx|].
  rewrite fmap_cons in Hnd. apply NoDup_cons in Hnd as [Hz Hnd].
  inv Hx; inv Hy; try done.
  - exfalso. apply Hz. rewrite Heq. by apply list_elem_of_fmap_2.
  - exfalso. apply Hz. rewrite <-Heq. by apply list_elem_of_fmap_2.
  - by apply IH.
Qed.

(** Rows with pairwise distinct labels have one sorted arrangement. *)
Lemma sort_rows_unique {A} (l1 l2 : list (string * A)) :
  NoDup l1.*1 → l1 ≡ₚ l2 → sort_rows l1 = sort_rows l2.
Proof.
  intros Hnd Hp.
  apply (StronglySorted_unique_strong label_le); try apply sort_rows_Sorted.
  - intros x y Hx Hy Hxy Hyx.
    rewrite sort_rows_Permutation in Hx. rewrite sort_rows_Permutation, <-Hp in Hy.
    apply (NoDup_fst_inj l1); try done.
    by apply (anti_symm String.le).
  - by rewrite !sort_rows_Permutation.
Qed.

(** Sorting looks at the labels only. *)
Lemma insert_row_fmap {A B} (h : A → B) (r : string * A) (k : list (string * A)) :
  insert_row (prod_map id h r) (prod_map id h <$> k) = prod_map id h <$> insert_row r k.
Proof.
  induction k as [|r' k IH]; [done|].
  rewrite fmap_cons. cbn [insert_row].
  destruct r as [a x], r' as [a' x']. cbn [prod_map fst id].
  case_decide.
  - by rewrite !fmap_cons.
  - rewrite fmap_cons. f_equal. exact IH.
Qed.

Lemma sort_rows_fmap {A B} (h : A → B) (l : list (string * A)) :
  sort_rows (prod_map id h <$> l) = prod_map id h <$> sort_rows l.
Proof.
  induction l as [|r l IH]; [done|].
  rewrite fmap_cons. unfold sort_rows in *. cbn [foldr].
  rewrite IH. apply insert_row_fmap.
Qed.

Lemma sort_rows_labels_Sorted {A} (l : list (string * A)) :
  StronglySorted String.le (sort_rows l).*1.
Proof.
  induction (sort_rows_Sorted l) as [|r k _ IH Hr]; simpl; constructor; [done|].
  apply Forall_fmap. exact Hr.
Qed.

(** ** Masks and the rows kept by them *)

Lemma take_mask_elem_of {A} (mask : list bool) (l : list A) (x : A) :
  x ∈ take_mask mask l ↔ ∃ i : nat, mask !! i = Some true ∧ l !! i = Some x.
Proof.
  revert l. induction mask as [|b mask IH]; intros l.
  - simpl. split; [by intros ?%elem_of_nil|]. by intros (i & ? & _).
  - destruct l as [|y l]; simpl.
    { split; [by intros ?%elem_of_nil|]. by intros (i & _ & ?). }
    destruct b.
    + rewrite elem_of_cons, IH. split.
      * intros [->|(i & ? & ?)]; [by exists 0|by exists (S i)].
      * intros ([|i] & Hm & Hl); simpl in *; [left; congruence|right; eauto].
    + rewrite IH. split.
      * intros (i & ? & ?). by exists (S i).
      * intros ([|i] & Hm & Hl); simpl in *; [done|eauto].
Qed.

Lemma series_ne_lookup (col : list string) (v : string) (i : nat) :
  series_ne col v !! i = Some true ↔ ∃ c, col !! i = Some c ∧ c ≠ v.
Proof.
  unfold series_ne. rewrite list_lookup_fmap.
  destruct (col !! i) as [c|]; simpl.
  - split.
    + intros [= H%bool_decide_eq_true]. eauto.
    + intros (c' & [= <-] & H). by rewrite bool_decide_eq_true_2.
  - split; [done|]. by intros (c & ? & _).
Qed.

Lemma series_eq_lookup (col : list string) (v : string) (i : nat) :
  series_eq col v !! i = Some true ↔ col !! i = Some v.
Proof.
  unfold series_eq. rewrite list_lookup_fmap.
  destruct (col !! i) as [c|]; simpl; [|done].
  split.
  - intros [= H%bool_decide_eq_true]. by subst.
  - intros [= ->]. by rewrite bool_decide_eq_true_2.
Qed.

Lemma getitem_mask_lookup (df : frame) (mask : list bool) (label : string) :
  getitem_mask df mask !! label = take_mask mask <$> df !! label.
Proof. unfold getitem_mask. apply lookup_fmap. Qed.

(** The values left in a column once the rows without a COSMIC
    annotation are gone. *)
Lemma flagged_elem_of (df : frame) (cosmic70 : list string) (label x : string) :
  df !! "cosmic70" = Some cosmic70 →
  flagged df label x ↔
  ∃ col, getitem_mask df (series_ne cosmic70 ".") !! label = Some col ∧ x ∈ col.
Proof.
  intros Hc. rewrite getitem_mask_lookup. split.
  - intros (c70 & col & i & c & Hc' & Hcol & Hi & Hne & Hx).
    assert (c70 = cosmic70) as -> by congruence.
    rewrite Hcol. simpl. eexists; split; [done|].
    apply take_mask_elem_of. exists i. split; [|done].
    apply series_ne_lookup. eauto.
  - intros (col' & Hcol & Hx).
    destruct (df !! label) as [col|] eqn:Hl; simpl in Hcol; [|done].
    injection Hcol as <-.
    apply take_mask_elem_of in Hx as (i & Hm & Hx).
    apply series_ne_lookup in Hm as (c & Hi & Hne).
    by exists cosmic70, col, i, c.
Qed.

Lemma flagged_contains (df : frame) (label x : string) :
  flagged df label x → contains df label x.
Proof.
  intros (c70 & col & i & c & _ & Hcol & _ & _ & Hx).
  exists col. split; [done|]. by eapply list_elem_of_lookup_2.
Qed.

(** ** The cells of one file *)

Lemma variant_class_eq focus cosmic (sub : frame) :
  variant_class focus cosmic sub =
  mapM (fun x => col ← getitem sub (relevant_column cosmic);
                 mret (if bool_decide (x ∈ col) then found cosmic else missing cosmic))
       focus.
Proof. by destruct cosmic. Qed.

Lemma variant_class_Some focus cosmic (sub : frame) col :
  sub !! relevant_column cosmic = Some col →
  variant_class focus cosmic sub =
  Ok ((fun x => if bool_decide (x ∈ col) then found cosmic else missing cosmic) <$> focus).
Proof.
  intros Hcol. rewrite variant_class_eq. apply mapM_Ok.
  apply Forall2_fmap_r, Forall_Forall2_diag, Forall_forall. intros x _.
  unfold getitem. by rewrite Hcol.
Qed.

Lemma variant_class_None focus cosmic (sub : frame) :
  sub !! relevant_column cosmic = None →
  variant_class focus cosmic sub =
  match focus with
  | [] => Ok []
  | _ :: _ => Raise (KeyError (relevant_column cosmic))
  end.
Proof.
  intros Hcol. rewrite variant_class_eq. destruct focus as [|x focus]; [done|].
  rewrite mapM_cons. unfold getitem. by rewrite Hcol.
Qed.

(** A file contributes a row exactly when it can be read, holds the
    column [cosmic70] (and the gene column, if any feature is asked for)
    and has an identifier; the cell of a feature then tells whether the
    feature occurs among the annotated rows. *)
Lemma file_row_Ok focus strip cosmic upd f sid cells :
  file_row focus strip cosmic upd f = Ok (sid, cells) →
  ∃ df, read_table f = Ok df ∧
        sample_id strip upd (file_name f) = Ok sid ∧
        length cells = length focus ∧
        ∀ (j : nat) F, focus !! j = Some F →
          cells !! j = Some (found cosmic) ∧ flagged df (relevant_column cosmic) F ∨
          cells !! j = Some (missing cosmic) ∧ ¬ flagged df (relevant_column cosmic) F.
Proof.
  unfold file_row. intros H.
  apply bind_Ok in H as (df & Hdf & H). exists df. split; [done|].
  apply bind_Ok in H as (c70 & Hc & H).
  apply bind_Ok in H as (vc & Hvc & H).
  apply bind_Ok in H as (sid' & Hsid & [= -> ->]). split; [done|].
  unfold getitem in Hc. destruct (df !! "cosmic70") as [c|] eqn:Hc70; [|done].
  injection Hc as <-.
  destruct (getitem_mask df (series_ne c ".") !! relevant_column cosmic) as [col|] eqn:Hcol.
  - rewrite (variant_class_Some _ _ _ col) in Hvc by done. injection Hvc as <-.
    split; [by rewrite length_fmap|].
    intros j F HF. rewrite list_lookup_fmap, HF. simpl.
    rewrite (flagged_elem_of df c) by done.
    case_bool_decide as HFc; [left|right]; (split; [done|]).
    + by exists col.
    + intros (col' & Hcol' & ?). congruence.
  - rewrite variant_class_None in Hvc by done.
    destruct focus; [|done]. injection Hvc as <-. split; [done|].
    intros j F HF. by rewrite lookup_nil in HF.
Qed.

Lemma mapM_Ok_elem_of_l {A B} (f : A → result B) (l : list A) (k : list B) (x : A) :
  mapM f l = Ok k → x ∈ l → ∃ y, y ∈ k ∧ f x = Ok y.
Proof.
  intros H%mapM_Ok Hx.
  apply list_elem_of_lookup in Hx as [i Hi].
  destruct (Forall2_lookup_l _ _ _ _ _ H Hi) as (y & Hy & Hf).
  exists y. split; [by eapply list_elem_of_lookup_2|done].
Qed.

Lemma mapM_Ok_elem_of_r {A B} (f : A → result B) (l : list A) (k : list B) (y : B) :
  mapM f l = Ok k → y ∈ k → ∃ x, x ∈ l ∧ f x = Ok y.
Proof.
  intros H%mapM_Ok Hy.
  apply list_elem_of_lookup in Hy as [i Hi].
  destruct (Forall2_lookup_r _ _ _ _ _ H Hi) as (x & Hx & Hf).
  exists x. split; [by eapply list_elem_of_lookup_2|done].
Qed.

(** The labels of the rows are the identifiers of the files, in the
    order of the files. *)
Lemma file_rows_labels focus strip cosmic upd files rs :
  mapM (file_row focus strip cosmic upd) files = Ok rs →
  mapM (sample_id strip upd) (file_name <$> files) = Ok rs.*1.
Proof.
  rewrite mapM_fmap, !mapM_Ok. intros H.
  apply Forall2_fmap_r. eapply Forall2_impl; [exact H|].
  intros f [sid cells] Hf. by apply file_row_Ok in Hf as (df & _ & Hsid & _).
Qed.

(** ** Presence and absence of a feature (C1) *)

(** Example of the description: two files, the gene KRAS in an annotated
    row of the first only, and the features KRAS and BRCA1. *)
Example kras_brca1 :
  let with_kras : frame :=
    <["cosmic70" := ["ID=COSM521"; "."]]> (<["Gene.refGene" := ["KRAS"; "TTN"]]> ∅) in
  let without : frame :=
    <["cosmic70" := ["ID=COSM1"]]> (<["Gene.refGene" := ["TP53"]]> ∅) in
  process_variants ["KRAS"; "BRCA1"] merged_strip_text false None
    (Some [VariantFile "A_processed_variants.tsv.bz2" (Ok with_kras);
           VariantFile "B_processed_variants.tsv.bz2" (Ok without)]) =
  Ok (Matrix (Some "Case.ID") ["KRAS"; "BRCA1"]
             [("A", [CStr "MUT;"; CStr ""]); ("B", [CStr ""; CStr ""])]).
Proof. vm_compute. reflexivity. Qed.

(** C1, as stated, fails: a gene that a file holds only in a row without
    COSMIC annotation is in the gene column of the file, and yet the row
    of the file is not marked at that gene. *)
Lemma unflagged_gene_not_marked :
  let df : frame := <["cosmic70" := ["."]]> (<["Gene.refGene" := ["KRAS"]]> ∅) in
  let f := VariantFile "SAMPLE001_processed_variants.tsv.bz2" (Ok df) in
  contains df (relevant_column false) "KRAS" ∧
  process_variants ["KRAS"] merged_strip_text false None (Some [f]) =
    Ok (Matrix (Some "Case.ID") ["KRAS"] [("SAMPLE001", [CStr ""])]).
Proof.
  split.
  - exists ["KRAS"]. split; [by vm_compute|]. by left.
  - by vm_compute.
Qed.

(** C1 (amended): when the builder returns a matrix, (1) for every file
    and every feature F of the feature list that occurs in the relevant
    column of the file in a row whose COSMIC annotation is not the
    sentinel, the matrix has a row labelled with the identifier of that
    file whose cell at the column of F is 1 (COSMIC mode) or ['MUT;']
    (gene mode); (2) for a feature that occurs in the relevant column of
    no file, every row has 0 (COSMIC mode) or the empty string (gene
    mode) at its column. *)
Theorem process_variants_presence focus strip cosmic upd files m :
  process_variants focus strip cosmic upd (Some files) = Ok m →
  (∀ f df (j : nat) F,
      f ∈ files → read_table f = Ok df → focus !! j = Some F →
      flagged df (relevant_column cosmic) F →
      ∃ sid cells, sample_id strip upd (file_name f) = Ok sid ∧
                   (sid, cells) ∈ rows m ∧ cells !! j = Some (found cosmic)) ∧
  (∀ (j : nat) F,
      focus !! j = Some F →
      (∀ f df, f ∈ files → read_table f = Ok df →
               ¬ contains df (relevant_column cosmic) F) →
      ∀ r, r ∈ rows m → r.2 !! j = Some (missing cosmic)).
Proof.
  intros (rs & Hrs & ->)%process_variants_Ok. simpl. split.
  - intros f df j F Hf Hdf HF Hfl.
    destruct (mapM_Ok_elem_of_l _ _ _ _ Hrs Hf) as ([sid cells] & Hin & Hrow).
    apply file_row_Ok in Hrow as (df' & Hdf' & Hsid & _ & Hcells).
    assert (df' = df) as -> by congruence.
    exists sid, cells. split; [done|]. split; [by rewrite sort_rows_Permutation|].
    destruct (Hcells j F HF) as [[? _]|[_ ?]]; done.
  - intros j F HF Hnone [sid cells] Hr. simpl.
    rewrite sort_rows_Permutation in Hr.
    destruct (mapM_Ok_elem_of_r _ _ _ _ Hrs Hr) as (f & Hf & Hrow).
    apply file_row_Ok in Hrow as (df & Hdf & _ & _ & Hcells).
    destruct (Hcells j F HF) as [[_ Hfl]|[? _]]; [|done].
    exfalso. eapply Hnone; [done..|]. by apply flagged_contains.
Qed.

Lemma process_variants_presence_witness :
  let with_kras : frame :=
    <["cosmic70" := ["ID=COSM521"; "."]]> (<["Gene.refGene" := ["KRAS"; "TTN"]]> ∅) in
  let files := [VariantFile "A_processed_variants.tsv.bz2" (Ok with_kras)] in
  let m := Matrix (Some "Case.ID") ["KRAS"; "BRCA1"] [("A", [CStr "MUT;"; CStr ""])] in
  (∀ f df (j : nat) F,
      f ∈ files → read_table f = Ok df → ["KRAS"; "BRCA1"] !! j = Some F →
      flagged df (relevant_column false) F →
      ∃ sid cells, sample_id merged_strip_text None (file_name f) = Ok sid ∧
                   (sid, cells) ∈ rows m ∧ cells !! j = Some (found false)) ∧
  (∀ (j : nat) F,
      ["KRAS"; "BRCA1"] !! j = Some F →
      (∀ f df, f ∈ files → read_table f = Ok df →
               ¬ contains df (relevant_column false) F) →
      ∀ r, r ∈ rows m → r.2 !! j = Some (missing false)).
Proof.
  intros with_kras files m.
  apply (process_variants_presence ["KRAS"; "BRCA1"] merged_strip_text false None files m).
  vm_compute. reflexivity.
Defined.

(** ** Rows and columns of the matrix (C2) *)

(** C2, as stated, fails: two files with the same derived identifier give
    two rows with that label, more rows than there are distinct
    identifiers; and a feature that is twice in the feature list is
    twice among the columns. *)
Lemma colliding_identifiers_kept :
  let df : frame := <["cosmic70" := ["ID=COSM521"]]> (<["Gene.refGene" := ["KRAS"]]> ∅) in
  let files := [VariantFile "KS27_processed_variants.tsv.bz2" (Ok df); VariantFile "KS27" (Ok df)] in
  ∃ m, process_variants ["KRAS"; "KRAS"] merged_strip_text false None (Some files) = Ok m ∧
       mapM (sample_id merged_strip_text None) (file_name <$> files) = Ok ["KS27"; "KS27"] ∧
       (rows m).*1 = ["KS27"; "KS27"] ∧
       length (rows m) ≠ size (list_to_set ["KS27"; "KS27"] : gset string) ∧
       ¬ NoDup (rows m).*1 ∧
       ¬ NoDup (columns m).
Proof.
  eexists. split; [by vm_compute|]. simpl.
  split; [by vm_compute|]. split; [done|]. split; [by vm_compute|].
  split; intros H; apply NoDup_cons in H as [H _]; apply H; by left.
Qed.

(** C2 (amended): when the builder returns a matrix, its row labels are
    the derived sample identifiers of the files, one row per file, in
    ascending order; they are without repetition, and as many as there
    are distinct identifiers, when the derived identifiers are pairwise
    distinct.  The columns are the feature list, same length and same
    order, every row has one cell per feature, and no column label is
    repeated when none is in the feature list. *)
Theorem process_variants_shape focus strip cosmic upd files m :
  process_variants focus strip cosmic upd (Some files) = Ok m →
  ∃ ids, mapM (sample_id strip upd) (file_name <$> files) = Ok ids ∧
         (rows m).*1 ≡ₚ ids ∧
         StronglySorted String.le (rows m).*1 ∧
         length (rows m) = length files ∧
         (NoDup ids → NoDup (rows m).*1 ∧
                      length (rows m) = size (list_to_set ids : gset string)) ∧
         columns m = focus ∧
         Forall (fun r => length r.2 = length focus) (rows m) ∧
         (NoDup focus → NoDup (columns m)).
Proof.
  intros (rs & Hrs & ->)%process_variants_Ok. simpl.
  exists rs.*1. split; [by eapply file_rows_labels|].
  split; [by rewrite sort_rows_Permutation|].
  split; [apply sort_rows_labels_Sorted|].
  split; [by rewrite sort_rows_Permutation; eapply mapM_length|].
  split.
  { intros Hnd. split; [by rewrite sort_rows_Permutation|].
    rewrite size_list_to_set by done.
    by rewrite sort_rows_Permutation, length_fmap. }
  split; [done|]. split; [|done].
  rewrite sort_rows_Permutation. apply Forall_forall. intros [sid cells] Hr.
  destruct (mapM_Ok_elem_of_r _ _ _ _ Hrs Hr) as (f & _ & Hrow).
  by apply file_row_Ok in Hrow as (df & _ & _ & ? & _).
Qed.

Lemma process_variants_shape_witness :
  let df : frame := <["cosmic70" := ["ID=COSM521"]]> (<["Gene.refGene" := ["KRAS"]]> ∅) in
  let files := [VariantFile "B_processed_variants.tsv.bz2" (Ok df);
                VariantFile "A_processed_variants.tsv.bz2" (Ok df)] in
  let focus := ["KRAS"; "BRCA1"] in
  let m := Matrix (Some "Case.ID") focus
             [("A", [CStr "MUT;"; CStr ""]); ("B", [CStr "MUT;"; CStr ""])] in
  ∃ ids, mapM (sample_id merged_strip_text None) (file_name <$> files) = Ok ids ∧
         (rows m).*1 ≡ₚ ids ∧
         StronglySorted String.le (rows m).*1 ∧
         length (rows m) = length files ∧
         (NoDup ids → NoDup (rows m).*1 ∧
                      length (rows m) = size (list_to_set ids : gset string)) ∧
         columns m = focus ∧
         Forall (fun r => length r.2 = length focus) (rows m) ∧
         (NoDup focus → NoDup (columns m)).
Proof.
  intros df files focus m.
  apply (process_variants_shape focus merged_strip_text false None files m).
  vm_compute. reflexivity.
Defined.

(** ** Rows without COSMIC annotation (C3) *)

Lemma file_row_cosmic70 focus strip cosmic upd f df r :
  file_row focus strip cosmic upd f = Ok r →
  read_table f = Ok df →
  ∃ cosmic70, df !! "cosmic70" = Some cosmic70.
Proof.
  unfold file_row. intros Hrow Hdf. rewrite Hdf in Hrow. simpl in Hrow.
  unfold getitem at 1 in Hrow.
  destruct (df !! "cosmic70") as [c|]; [by exists c|done].
Qed.

Lemma found_ne_missing cosmic : found cosmic ≠ missing cosmic.
Proof. by destruct cosmic. Qed.

(** C3: the rows of a file whose COSMIC annotation is the sentinel ['.']
    are discarded before the membership tests.  For every file of the
    directory the matrix has a row with the identifier of the file whose
    cell at a feature is 1 (COSMIC mode) or ['MUT;'] (gene mode) exactly
    when the feature occurs in the relevant column in a row whose
    annotation is not the sentinel, and 0 or the empty string otherwise:
    a feature all of whose occurrences are in rows with the sentinel is
    not marked.  A file all of whose rows carry the sentinel is not left
    out: the matrix has one row per file, and the row of such a file is
    all 0 (COSMIC mode) or all empty strings (gene mode). *)
Theorem unflagged_rows_discarded focus strip cosmic upd files m f df :
  process_variants focus strip cosmic upd (Some files) = Ok m →
  f ∈ files →
  read_table f = Ok df →
  length (rows m) = length files ∧
  ∃ sid cells cosmic70,
    sample_id strip upd (file_name f) = Ok sid ∧
    df !! "cosmic70" = Some cosmic70 ∧
    (sid, cells) ∈ rows m ∧
    length cells = length focus ∧
    (∀ (j : nat) F, focus !! j = Some F →
       (cells !! j = Some (found cosmic) ↔ flagged df (relevant_column cosmic) F) ∧
       (cells !! j = Some (missing cosmic) ↔ ¬ flagged df (relevant_column cosmic) F)) ∧
    (∀ (j : nat) F col, focus !! j = Some F →
       df !! relevant_column cosmic = Some col →
       (∀ i : nat, col !! i = Some F → cosmic70 !! i = Some ".") →
       cells !! j = Some (missing cosmic)) ∧
    (Forall (fun c => c = ".") cosmic70 →
     cells = replicate (length focus) (missing cosmic)).
Proof.
  intros Hm Hf Hdf.
  apply process_variants_Ok in Hm as (rs & Hrs & ->). simpl.
  split; [by rewrite sort_rows_Permutation; eapply mapM_length|].
  destruct (mapM_Ok_elem_of_l _ _ _ _ Hrs Hf) as ([sid cells] & Hin & Hrow).
  destruct (file_row_cosmic70 _ _ _ _ _ _ _ Hrow Hdf) as [cosmic70 Hc].
  apply file_row_Ok in Hrow as (df' & Hdf' & Hsid & Hlen & Hcells).
  assert (df' = df) as -> by congruence.
  exists sid, cells, cosmic70.
  split; [done|]. split; [done|]. split; [by rewrite sort_rows_Permutation|].
  split; [done|].
  assert (∀ (j : nat) F, focus !! j = Some F →
            ¬ flagged df (relevant_column cosmic) F →
            cells !! j = Some (missing cosmic)) as Hmissing.
  { intros j F HF Hnot. destruct (Hcells j F HF) as [[_ ?]|[? _]]; done. }
  split; [|split].
  - intros j F HF. pose proof (found_ne_missing cosmic) as Hne.
    destruct (Hcells j F HF) as [[Hcell Hfl]|[Hcell Hfl]]; rewrite Hcell.
    + split; [done|]. split; [|done]. intros [= ?]. done.
    + split; [|done]. split; [|done]. intros [= ?]. by exfalso.
  - intros j F col HF Hcol Hsentinel. apply (Hmissing j F HF).
    intros (c70 & col' & i & c & Hc' & Hcol' & Hi & Hne & Hx).
    assert (c70 = cosmic70) as -> by congruence.
    assert (col' = col) as -> by congruence.
    specialize (Hsentinel i Hx). congruence.
  - intros Hall. apply list_eq. intros j.
    destruct (focus !! j) as [F|] eqn:HF.
    + rewrite (lookup_replicate_2 _ _ _ (lookup_lt_Some _ _ _ HF)).
      apply (Hmissing j F HF).
      intros (c70 & col & i & c & Hc' & _ & Hi & Hne & _).
      assert (c70 = cosmic70) as -> by congruence.
      apply Hne. eapply Forall_lookup_1 in Hall; [|exact Hi]. done.
    + apply lookup_ge_None in HF.
      rewrite lookup_ge_None_2 by lia.
      symmetry. apply lookup_ge_None_2. rewrite length_replicate. lia.
Qed.

Lemma unflagged_rows_discarded_witness :
  let mixed : frame :=
    <["cosmic70" := ["ID=COSM521"; "."]]> (<["Gene.refGene" := ["KRAS"; "TTN"]]> ∅) in
  let unflagged : frame :=
    <["cosmic70" := ["."; "."]]> (<["Gene.refGene" := ["KRAS"; "TTN"]]> ∅) in
  let f := VariantFile "A_processed_variants.tsv.bz2" (Ok mixed) in
  let files := [f; VariantFile "B_processed_variants.tsv.bz2" (Ok unflagged)] in
  let focus := ["KRAS"; "TTN"] in
  let m := Matrix (Some "Case.ID") focus
             [("A", [CStr "MUT;"; CStr ""]); ("B", [CStr ""; CStr ""])] in
  length (rows m) = length files ∧
  ∃ sid cells cosmic70,
    sample_id merged_strip_text None (file_name f) = Ok sid ∧
    mixed !! "cosmic70" = Some cosmic70 ∧
    (sid, cells) ∈ rows m ∧
    length cells = length focus ∧
    (∀ (j : nat) F, focus !! j = Some F →
       (cells !! j = Some (found false) ↔ flagged mixed (relevant_column false) F) ∧
       (cells !! j = Some (missing false) ↔ ¬ flagged mixed (relevant_column false) F)) ∧
    (∀ (j : nat) F col, focus !! j = Some F →
       mixed !! relevant_column false = Some col →
       (∀ i : nat, col !! i = Some F → cosmic70 !! i = Some ".") →
       cells !! j = Some (missing false)) ∧
    (Forall (fun c => c = ".") cosmic70 →
     cells = replicate (length focus) (missing false)).
Proof.
  intros mixed unflagged f files focus m.
  apply (unflagged_rows_discarded focus merged_strip_text false None files m f mixed).
  - vm_compute. reflexivity.
  - left.
  - reflexivity.
Defined.

(** ** Sample identifiers (C4, C5) *)

Lemma is_prefix_app (p s : string) : PyStr.is_prefix p (p +:+ s) = true.
Proof.
  induction p as [|a p IH]; simpl; [done|]. by rewrite decide_True.
Qed.

Lemma replace_scan_skip (old new s : string) (k : nat) :
  (String.length s ≤ k)%nat → PyStr.replace_scan old new k s = "".
Proof.
  revert k. induction s as [|c s IH]; intros k Hk; simpl; [done|].
  destruct k as [|k]; simpl in Hk; [lia|]. apply IH. lia.
Qed.

Lemma is_prefix_refl (s : string) : PyStr.is_prefix s s = true.
Proof.
  induction s as [|a s IH]; simpl; [done|]. by rewrite decide_True.
Qed.

Lemma replace_scan_whole (old new : string) :
  old ≠ "" → PyStr.replace_scan old new 0 old = new.
Proof.
  destruct old as [|c s] eqn:Hold; [done|]. intros _. rewrite <-Hold.
  rewrite Hold at 2. cbn [PyStr.replace_scan]. rewrite <-Hold, is_prefix_refl.
  rewrite replace_scan_skip; [|rewrite Hold; simpl; lia].
  clear. induction new as [|a new IH]; [done|].
  change (String a (new +:+ "") = String a new). by f_equal.
Qed.

(** A suffix that occurs nowhere else in the name is cut off by
    [replace], and the rest of the name is kept. *)
Lemma replace_suffix (base strip : string) :
  strip ≠ "" →
  (∀ a b, base = a +:+ b → b ≠ "" → PyStr.is_prefix strip (b +:+ strip) = false) →
  PyStr.replace (base +:+ strip) strip "" = base.
Proof.
  intros Hne.
  assert (PyStr.replace (base +:+ strip) strip "" =
          PyStr.replace_scan strip "" 0 (base +:+ strip)) as ->.
  { unfold PyStr.replace. by destruct strip. }
  induction base as [|c base IH]; intros Hocc.
  - by apply replace_scan_whole.
  - change (String c base +:+ strip) with (String c (base +:+ strip)).
    cbn [PyStr.replace_scan].
    pose proof (Hocc "" (String c base) eq_refl ltac:(done)) as Hp.
    change (String c base +:+ strip) with (String c (base +:+ strip)) in Hp.
    rewrite Hp. f_equal.
    apply IH. intros a b -> Hb. by apply (Hocc (String c a) b).
Qed.

(** C4: with no remapping table, the identifier of every file is its
    name with the occurrences of [strip_text] removed, and these are the
    labels of the matrix; a suffix that occurs only at the end of the
    name is cut off, the rest of the name being kept; the identifier of
    [SAMPLE001_processed_variants.tsv.bz2] for the strip text
    [_processed_variants.tsv.bz2] is [SAMPLE001]. *)
Theorem sample_id_strips focus strip cosmic files m :
  process_variants focus strip cosmic None (Some files) = Ok m →
  (∀ name, sample_id strip None name = Ok (PyStr.replace name strip "")) ∧
  (rows m).*1 ≡ₚ (fun f => PyStr.replace (file_name f) strip "") <$> files ∧
  (∀ base, strip ≠ "" →
     (∀ a b, base = a +:+ b → b ≠ "" → PyStr.is_prefix strip (b +:+ strip) = false) →
     sample_id strip None (base +:+ strip) = Ok base) ∧
  sample_id "_processed_variants.tsv.bz2" None "SAMPLE001_processed_variants.tsv.bz2" =
    Ok "SAMPLE001".
Proof.
  intros (rs & Hrs & ->)%process_variants_Ok. simpl.
  split; [done|]. split.
  - rewrite sort_rows_Permutation.
    apply file_rows_labels in Hrs. rewrite mapM_fmap in Hrs.
    apply mapM_Ok in Hrs.
    assert (rs.*1 = (fun f => PyStr.replace (file_name f) strip "") <$> files) as ->; [|done].
    induction Hrs as [|f sid files ids Hsid _ IH]; [done|].
    rewrite fmap_cons, IH. by injection Hsid as <-.
  - split; [|by vm_compute].
    intros base Hne Hocc. unfold sample_id. simpl. f_equal. by apply replace_suffix.
Qed.

Lemma sample_id_strips_witness :
  let df : frame := <["cosmic70" := ["ID=COSM521"]]> (<["Gene.refGene" := ["KRAS"]]> ∅) in
  let files := [VariantFile "SAMPLE001_processed_variants.tsv.bz2" (Ok df)] in
  let strip := "_processed_variants.tsv.bz2" in
  let m := Matrix (Some "Case.ID") ["KRAS"] [("SAMPLE001", [CStr "MUT;"])] in
  (∀ name, sample_id strip None name = Ok (PyStr.replace name strip "")) ∧
  (rows m).*1 ≡ₚ (fun f => PyStr.replace (file_name f) strip "") <$> files ∧
  (∀ base, strip ≠ "" →
     (∀ a b, base = a +:+ b → b ≠ "" → PyStr.is_prefix strip (b +:+ strip) = false) →
     sample_id strip None (base +:+ strip) = Ok base) ∧
  sample_id "_processed_variants.tsv.bz2" None "SAMPLE001_processed_variants.tsv.bz2" =
    Ok "SAMPLE001".
Proof.
  intros df files strip m.
  apply (sample_id_strips ["KRAS"] strip false files m).
  vm_compute. reflexivity.
Defined.

(** C5 fails on the code: with a remapping table, the identifier is the
    whole file name in which the occurrences of the prefix token are
    replaced; the strip text has no effect on it.  For the file
    [001_processed_variants.tsv.bz2] and the table that maps [001] to
    [KS27], the code gives [KS27_processed_variants.tsv.bz2], where
    stripping first and substituting then gives [KS27]. *)
Theorem id_updater_ignores_strip_text :
  (∀ strip strip' d name,
     sample_id strip (Some d) name = sample_id strip' (Some d) name) ∧
  sample_id merged_strip_text (Some {["001" := "KS27"]}) "001_processed_variants.tsv.bz2" =
    Ok "KS27_processed_variants.tsv.bz2" ∧
  PyStr.replace (PyStr.replace "001_processed_variants.tsv.bz2" merged_strip_text "")
                "001" "KS27" = "KS27".
Proof.
  split; [done|]. split; by vm_compute.
Qed.

(** ** The order in which the directory is listed (C10) *)

Lemma process_variants_eq focus strip cosmic upd files :
  process_variants focus strip cosmic upd (Some files) =
  rs ← mapM (file_row focus strip cosmic upd) files;
  mret (Matrix (Some "Case.ID") focus (sort_rows rs)).
Proof.
  unfold process_variants. simpl. rewrite for_each_loop_body.
  destruct (mapM _ files) as [rs|e]; simpl; [|done].
  unfold set_index_name, sort_index, DataFrame. simpl. by rewrite zip_fst_snd.
Qed.

(** C10: two listings of the same files, in any two orders, give the
    same matrix when the derived identifiers of the files are pairwise
    distinct; if the builder raises on one listing it raises on the
    other. *)
Theorem process_variants_listing_order focus strip cosmic upd files1 files2 :
  files1 ≡ₚ files2 →
  (∀ ids, mapM (sample_id strip upd) (file_name <$> files1) = Ok ids → NoDup ids) →
  returned (process_variants focus strip cosmic upd (Some files1)) =
  returned (process_variants focus strip cosmic upd (Some files2)).
Proof.
  intros Hperm Hnd. rewrite !process_variants_eq.
  pose proof (mapM_Permutation (file_row focus strip cosmic upd) _ _ Hperm) as H.
  destruct (mapM _ files1) as [rs1|] eqn:H1, (mapM _ files2) as [rs2|]; try done.
  simpl. do 2 f_equal. apply sort_rows_unique; [|done].
  apply Hnd. by eapply file_rows_labels.
Qed.

Lemma process_variants_listing_order_witness :
  let a : frame := <["cosmic70" := ["ID=COSM521"; "."]]> (<["Gene.refGene" := ["KRAS"; "TTN"]]> ∅) in
  let b : frame := <["cosmic70" := ["ID=COSM1"]]> (<["Gene.refGene" := ["TP53"]]> ∅) in
  let fa := VariantFile "A_processed_variants.tsv.bz2" (Ok a) in
  let fb := VariantFile "B_processed_variants.tsv.bz2" (Ok b) in
  returned (process_variants ["KRAS"; "BRCA1"] merged_strip_text false None (Some [fa; fb])) =
  returned (process_variants ["KRAS"; "BRCA1"] merged_strip_text false None (Some [fb; fa])).
Proof.
  intros a b fa fb.
  apply (process_variants_listing_order ["KRAS"; "BRCA1"] merged_strip_text false None
           [fa; fb] [fb; fa]).
  - apply perm_swap.
  - intros ids H. vm_compute in H. injection H as <-.
    apply NoDup_cons. split; [|apply NoDup_singleton].
    intros Hin%list_elem_of_singleton. discriminate Hin.
Defined.

(** ** Failures (C7) *)

Lemma unusable_file_row focus strip cosmic upd f :
  unusable focus cosmic f → ∃ e, file_row focus strip cosmic upd f = Raise e.
Proof.
  unfold unusable, file_row. destruct (read_table f) as [df|e]; [|by eexists].
  simpl. unfold getitem at 1.
  destruct (df !! "cosmic70") as [c|] eqn:Hc; simpl.
  - intros [?|(-> & Hne & Hg)]; [done|].
    rewrite variant_class_None.
    + destruct focus; [done|]. by eexists.
    + simpl. by rewrite getitem_mask_lookup, Hg.
  - by eexists.
Qed.

(** C7, as stated, fails: an empty directory is no error.  The builder
    returns the matrix without rows, and the cell writes it. *)
Lemma empty_directory_is_written :
  let built := process_variants ["KRAS"; "ATM"] merged_strip_text false None (Some []) in
  let empty := Matrix (Some "Case.ID") ["KRAS"; "ATM"] [] in
  built = Ok empty ∧
  (df ← compute built; to_csv df "results/oncoprint_merged.tsv") ∅ =
    (<["results/oncoprint_merged.tsv" := empty]> ∅, Ok tt).
Proof. split; reflexivity. Qed.

(** C7 (amended): the builder handles no exception.  When the directory
    does not exist, or a file of it cannot be read or parsed, or the
    table of a file lacks the column [cosmic70] (or, in gene mode with a
    non-empty feature list, the column [Gene.refGene]), the call raises;
    the cell that would write its matrix writes nothing, and no later
    cell is run.  An empty directory is not among these cases: for it the
    builder returns a matrix without rows. *)
Theorem failure_aborts_run focus strip cosmic upd variant_dir path written
    (rest : script unit) :
  (variant_dir = None ∨
   ∃ files f, variant_dir = Some files ∧ f ∈ files ∧ unusable focus cosmic f) →
  (∃ e, process_variants focus strip cosmic upd variant_dir = Raise e ∧
        (df ← compute (process_variants focus strip cosmic upd variant_dir);
         _ ← to_csv df path; rest) written = (written, Raise e)) ∧
  process_variants focus strip cosmic upd (Some []) =
    Ok (Matrix (Some "Case.ID") focus []).
Proof.
  intros Hbad. split; [|done].
  assert (∃ e, process_variants focus strip cosmic upd variant_dir = Raise e) as [e He].
  { destruct Hbad as [->|(files & f & -> & Hf & Hbad)]; [by eexists|].
    destruct (unusable_file_row focus strip cosmic upd f Hbad) as [e0 He0].
    destruct (mapM_raises _ _ _ _ Hf He0) as [e He].
    exists e. by apply process_variants_Raise. }
  exists e. split; [done|].
  unfold mbind, script_bind, compute. by rewrite He.
Qed.

Lemma failure_aborts_run_witness :
  let no_cosmic : frame := <["Gene.refGene" := ["KRAS"]]> ∅ in
  let dir := Some [VariantFile "A_processed_variants.tsv.bz2" (Ok no_cosmic);
                   VariantFile "B_processed_variants.tsv.bz2" (Raise ParserError)] in
  (∃ e, process_variants ["KRAS"] merged_strip_text false None dir = Raise e ∧
        (df ← compute (process_variants ["KRAS"] merged_strip_text false None dir);
         _ ← to_csv df "results/oncoprint_merged.tsv"; mret tt) ∅ = (∅, Raise e)) ∧
  process_variants ["KRAS"] merged_strip_text false None (Some []) =
    Ok (Matrix (Some "Case.ID") ["KRAS"] []).
Proof.
  intros no_cosmic dir.
  apply (failure_aborts_run ["KRAS"] merged_strip_text false None dir
           "results/oncoprint_merged.tsv" ∅ (mret tt)).
  right. eexists _, _. split; [reflexivity|]. split; [left|].
  unfold unusable. simpl. left. reflexivity.
Defined.

(** ** The gene feature list (C8) *)

Lemma distinct_elem_of (seen l : list string) (x : string) :
  x ∈ distinct seen l ↔ x ∈ l ∧ x ∉ seen.
Proof.
  revert seen. induction l as [|y l IH]; intros seen; simpl.
  - split; [by intros ?%elem_of_nil|]. by intros [?%elem_of_nil _].
  - case_decide as Hy.
    + rewrite IH, elem_of_cons. split.
      * intros [? ?]. split; [by right|done].
      * intros [[->|?] ?]; done.
    + rewrite !elem_of_cons, IH, elem_of_cons. split.
      * intros [->|(? & Hx)]; [by auto|]. split; [by right|].
        intros ?. apply Hx. by right.
      * intros [[->|?] Hx]; [by left|].
        destruct (decide (x = y)) as [->|Hne]; [by left|right].
        split; [done|]. intros [?|?]; done.
Qed.

Lemma distinct_NoDup (seen l : list string) : NoDup (distinct seen l).
Proof.
  revert seen. induction l as [|y l IH]; intros seen; simpl; [constructor|].
  case_decide; [done|]. constructor; [|done].
  rewrite distinct_elem_of. intros [_ Hy]. apply Hy. by left.
Qed.

Lemma insert_count_Permutation c l : insert_count c l ≡ₚ c :: l.
Proof.
  induction l as [|c' l IH]; simpl; [done|].
  case_decide; [done|]. rewrite IH. apply perm_swap.
Qed.

Global Instance count_ge_trans : Transitive count_ge.
Proof. intros x y z. unfold count_ge. lia. Qed.

Lemma insert_count_Sorted c l :
  StronglySorted count_ge l → StronglySorted count_ge (insert_count c l).
Proof.
  induction 1 as [|c' l Hl IH Hc']; simpl.
  - repeat constructor.
  - case_decide as Hle.
    + constructor; [by constructor|].
      constructor; [done|].
      eapply Forall_impl; [exact Hc'|]. intros z Hz. by etrans.
    + constructor; [done|].
      rewrite insert_count_Permutation. constructor; [|done].
      unfold count_ge. lia.
Qed.

Lemma value_counts_Permutation (col : list string) :
  value_counts col ≡ₚ (fun x => (x, occurrences x col)) <$> distinct [] col.
Proof.
  unfold value_counts.
  induction (_ <$> distinct [] col) as [|c l IH]; simpl; [done|].
  rewrite insert_count_Permutation. by constructor.
Qed.

Lemma value_counts_Sorted (col : list string) : StronglySorted count_ge (value_counts col).
Proof.
  unfold value_counts.
  induction (_ <$> distinct [] col) as [|c l IH]; simpl; [constructor|].
  by apply insert_count_Sorted.
Qed.

Lemma value_counts_index (col : list string) : (value_counts col).*1 ≡ₚ distinct [] col.
Proof.
  rewrite value_counts_Permutation, <-list_fmap_compose.
  by rewrite list_fmap_id.
Qed.

Lemma value_counts_elem_of (col : list string) (c : string * nat) :
  c ∈ value_counts col → c.1 ∈ col ∧ c.2 = occurrences c.1 col.
Proof.
  rewrite value_counts_Permutation.
  intros (x & -> & [Hx _]%distinct_elem_of)%list_elem_of_fmap. done.
Qed.

Lemma distinct_size (col : list string) :
  length (distinct [] col) = size (list_to_set col : gset string).
Proof.
  rewrite <-(size_list_to_set (C:=gset string) (distinct [] col)) by apply distinct_NoDup.
  f_equal. apply set_eq. intros x.
  rewrite !elem_of_list_to_set, distinct_elem_of. split; [by intros [? _]|].
  intros ?. split; [done|]. apply not_elem_of_nil.
Qed.

Lemma sorted_counts_index (l : list (string * nat)) (col : list string) :
  StronglySorted count_ge l →
  (∀ c, c ∈ l → c.2 = occurrences c.1 col) →
  StronglySorted (fun g g' => (occurrences g' col ≤ occurrences g col)%nat) l.*1.
Proof.
  induction 1 as [|c l Hl IH Hc]; intros Hocc; simpl; constructor.
  - apply IH. intros c' Hc'. apply Hocc. by right.
  - apply Forall_fmap, Forall_forall. intros c' Hc'. simpl.
    rewrite <-(Hocc c) by left. rewrite <-(Hocc c') by (by right).
    eapply Forall_forall in Hc; [exact Hc|done].
Qed.

(** C8, as stated, fails: when one of the two genes added by hand is
    among the most frequent ones already, it is twice in the list. *)
Lemma atm_listed_twice :
  let cosmic_all_df : frame :=
    <["Gene.refGene" := ["KRAS"; "ATM"; "KRAS"]]> (<["cosmic70" := ["a"; "b"; "c"]]> ∅) in
  paad_genes cosmic_all_df = Ok ["KRAS"; "ATM"; "ATM"; "RNF43"] ∧
  ¬ NoDup ["KRAS"; "ATM"; "ATM"; "RNF43"].
Proof.
  split; [by vm_compute|].
  intros [_ H]%NoDup_cons. apply NoDup_cons in H as [H _]. apply H. by left.
Qed.

(** C8 (amended): the gene feature list, which is the feature list of
    the two calls in gene mode, is the list [top] of the 50 most frequent
    gene names of the aggregate table (of all of them when there are fewer
    than 50), without repetition and in descending order of frequency,
    followed by ATM and RNF43; no feature is twice in the list exactly
    when neither ATM nor RNF43 is in [top]. *)
Theorem paad_genes_top (cosmic_all_df : frame) (col : list string) :
  cosmic_all_df !! "Gene.refGene" = Some col →
  ∃ top, paad_genes cosmic_all_df = Ok (top ++ ["ATM"; "RNF43"]) ∧
         length top = Nat.min top_n (size (list_to_set col : gset string)) ∧
         NoDup top ∧
         (∀ g, g ∈ top → g ∈ col) ∧
         StronglySorted (fun g g' => (occurrences g' col ≤ occurrences g col)%nat) top ∧
         (∀ g g', g ∈ top → g' ∈ col → g' ∉ top →
                  (occurrences g' col ≤ occurrences g col)%nat) ∧
         (NoDup (top ++ ["ATM"; "RNF43"]) ↔ ("ATM" ∉ top) ∧ ("RNF43" ∉ top)) ∧
         (∀ dir m, replicate_oncoprint_df cosmic_all_df dir = Ok m →
                   columns m = top ++ ["ATM"; "RNF43"]) ∧
         (∀ dir m, merged_oncoprint_df cosmic_all_df dir = Ok m →
                   columns m = top ++ ["ATM"; "RNF43"]).
Proof.
  intros Hcol. exists (take top_n (value_counts col).*1).
  assert (paad_genes cosmic_all_df = Ok (take top_n (value_counts col).*1 ++ ["ATM"; "RNF43"]))
    as Hgenes.
  { unfold paad_genes, getitem. by rewrite Hcol. }
  pose proof (value_counts_Sorted col) as Hsorted.
  rewrite <-(take_drop top_n (value_counts col)) in Hsorted.
  apply StronglySorted_app in Hsorted as (Hcross & Htake & _).
  split; [done|]. split.
  { rewrite length_take, length_fmap.
    rewrite <-distinct_size, <-value_counts_index, length_fmap. lia. }
  split.
  { eapply sublist_NoDup; [|apply sublist_take].
    rewrite value_counts_index. apply distinct_NoDup. }
  split.
  { intros g Hg. rewrite <-fmap_take in Hg.
    apply list_elem_of_fmap in Hg as (c & -> & Hc%elem_of_take).
    destruct Hc as (i & Hc & _). apply list_elem_of_lookup_2 in Hc.
    by apply value_counts_elem_of in Hc as [? _]. }
  split.
  { rewrite <-fmap_take. apply sorted_counts_index; [done|].
    intros c (i & Hc & _)%elem_of_take. apply list_elem_of_lookup_2 in Hc.
    by apply value_counts_elem_of in Hc as [_ ?]. }
  split.
  { intros g g' Hg Hg' Hout.
    rewrite <-fmap_take in Hg, Hout.
    apply list_elem_of_fmap in Hg as (c & -> & Hc).
    assert (g' ∈ (value_counts col).*1) as Hin.
    { rewrite value_counts_index, distinct_elem_of. split; [done|]. apply not_elem_of_nil. }
    apply list_elem_of_fmap in Hin as (c' & -> & Hc').
    rewrite <-(take_drop top_n (value_counts col)) in Hc'.
    apply elem_of_app in Hc' as [Hc'|Hc'].
    { exfalso. apply Hout. by apply list_elem_of_fmap_2. }
    specialize (Hcross c c' Hc Hc'). unfold count_ge in Hcross.
    assert (c ∈ value_counts col) as Hc1.
    { rewrite <-(take_drop top_n (value_counts col)). apply elem_of_app. by left. }
    assert (c' ∈ value_counts col) as Hc2.
    { rewrite <-(take_drop top_n (value_counts col)). apply elem_of_app. by right. }
    apply value_counts_elem_of in Hc1 as [_ <-].
    apply value_counts_elem_of in Hc2 as [_ <-]. done. }
  split.
  { rewrite NoDup_app. split.
    - intros (_ & Hdisj & _). split; intros Hin; apply (Hdisj _ Hin).
      + by left.
      + right. by left.
    - intros [Hatm Hrnf]. split.
      + eapply sublist_NoDup; [|apply sublist_take].
        rewrite value_counts_index. apply distinct_NoDup.
      + split.
        * intros x Hx [->|[->|?%elem_of_nil]%elem_of_cons]%elem_of_cons; done.
        * apply NoDup_cons. split; [|apply NoDup_singleton].
          intros Heq%list_elem_of_singleton. discriminate Heq. }
  split.
  - intros dir m. unfold replicate_oncoprint_df. rewrite Hgenes. simpl.
    destruct dir as [files|]; [|done].
    by intros (rs & _ & ->)%process_variants_Ok.
  - intros dir m. unfold merged_oncoprint_df. rewrite Hgenes. simpl.
    destruct dir as [files|]; [|done].
    by intros (rs & _ & ->)%process_variants_Ok.
Qed.

Lemma paad_genes_top_witness :
  let col := ["KRAS"; "TP53"; "KRAS"; "NCOR2"; "KRAS"; "TP53"] in
  let cosmic_all_df : frame := <["Gene.refGene" := col]> ∅ in
  ∃ top, paad_genes cosmic_all_df = Ok (top ++ ["ATM"; "RNF43"]) ∧
         length top = Nat.min top_n (size (list_to_set col : gset string)) ∧
         NoDup top ∧
         (∀ g, g ∈ top → g ∈ col) ∧
         StronglySorted (fun g g' => (occurrences g' col ≤ occurrences g col)%nat) top ∧
         (∀ g g', g ∈ top → g' ∈ col → g' ∉ top →
                  (occurrences g' col ≤ occurrences g col)%nat) ∧
         (NoDup (top ++ ["ATM"; "RNF43"]) ↔ ("ATM" ∉ top) ∧ ("RNF43" ∉ top)) ∧
         (∀ dir m, replicate_oncoprint_df cosmic_all_df dir = Ok m →
                   columns m = top ++ ["ATM"; "RNF43"]) ∧
         (∀ dir m, merged_oncoprint_df cosmic_all_df dir = Ok m →
                   columns m = top ++ ["ATM"; "RNF43"]).
Proof.
  intros col cosmic_all_df.
  apply (paad_genes_top cosmic_all_df col). reflexivity.
Defined.

(** ** The amino-acid-change pass (C9) *)

Lemma consensus_body_row df muts case_ids class_list s :
  consensus_body df muts (case_ids, class_list) s =
  r ← consensus_row df muts s; mret (case_ids ++ [r.1], class_list ++ [r.2]).
Proof.
  unfold consensus_body, consensus_row.
  destruct (getitem df "final_id") as [fid|]; simpl; [|done].
  by destruct (mapM _ muts) as [cells|].
Qed.

Lemma for_each_consensus_body df muts ids case_ids class_list :
  for_each (consensus_body df muts) (case_ids, class_list) ids =
  rs ← mapM (consensus_row df muts) ids;
  mret (case_ids ++ rs.*1, class_list ++ rs.*2).
Proof.
  revert case_ids class_list.
  induction ids as [|s ids IH]; intros case_ids class_list.
  - simpl. by rewrite !app_nil_r.
  - rewrite mapM_cons. cbn [for_each]. rewrite consensus_body_row.
    destruct (consensus_row df muts s) as [[s' cells]|]; simpl; [|done].
    rewrite IH.
    destruct (mapM _ ids) as [rs|]; simpl; [|done].
    by rewrite <-!app_assoc.
Qed.

Lemma consensus_rows (df : frame) muts fid aa ids :
  df !! "final_id" = Some fid →
  df !! "AAChange.refGene" = Some aa →
  mapM (consensus_row df muts) ids =
  Ok ((fun s => (s, (fun x => if bool_decide (x ∈ take_mask (series_eq fid s) aa)
                              then CInt 1 else CInt 0) <$> muts)) <$> ids).
Proof.
  intros Hfid Haa. apply mapM_Ok, Forall2_fmap_r, Forall_Forall2_diag, Forall_forall.
  intros s _. unfold consensus_row.
  assert (getitem df "final_id" = Ok fid) as -> by (unfold getitem; by rewrite Hfid).
  simpl.
  match goal with |- mapM ?f muts ≫= _ = _ =>
    assert (mapM f muts =
            Ok ((fun x => if bool_decide (x ∈ take_mask (series_eq fid s) aa)
                          then CInt 1 else CInt 0) <$> muts)) as ->; [|done]
  end.
  apply mapM_Ok, Forall2_fmap_r, Forall_Forall2_diag, Forall_forall.
  intros x _. unfold getitem. by rewrite getitem_mask_lookup, Haa.
Qed.

(** Two columns cut by the same mask stay aligned. *)
Lemma take_mask_aligned {A B} (mask : list bool) (l1 : list A) (l2 : list B) a b :
  (∃ k : nat, take_mask mask l1 !! k = Some a ∧ take_mask mask l2 !! k = Some b) ↔
  (∃ i : nat, mask !! i = Some true ∧ l1 !! i = Some a ∧ l2 !! i = Some b).
Proof.
  revert l1 l2. induction mask as [|c mask IH]; intros l1 l2.
  { simpl. split; [by intros (k & ? & _)|by intros (i & ? & _)]. }
  destruct l1 as [|x l1].
  { simpl. split; [by intros (k & ? & _)|by intros (i & _ & ? & _)]. }
  destruct l2 as [|y l2].
  { assert (take_mask (c :: mask) (@nil B) = []) as -> by done.
    split; [by intros (k & _ & ?)|by intros (i & _ & _ & ?)]. }
  destruct c; simpl.
  - split.
    + intros ([|k] & H1 & H2); simpl in *.
      * exists 0. simpl. done.
      * destruct (proj1 (IH l1 l2)) as (i & ? & ? & ?); [by exists k|].
        by exists (S i).
    + intros ([|i] & Hm & H1 & H2); simpl in *.
      * by exists 0.
      * destruct (proj2 (IH l1 l2)) as (k & ? & ?); [by exists i|].
        by exists (S k).
  - rewrite IH. split.
    + intros (i & ? & ? & ?). by exists (S i).
    + intros ([|i] & Hm & H1 & H2); simpl in *; [done|]. by exists i.
Qed.

Lemma enumeration_elements : enumeration elements.
Proof.
  intros X. split; [apply NoDup_elements|]. intros x. apply elem_of_elements.
Qed.

(** C9: the amino-acid-change pass returns a matrix whenever the table
    has the two columns it reads.  Its columns are the distinct
    amino-acid changes other than the sentinel ['.'], its rows are
    labelled by the distinct values of [final_id] among the rows whose
    amino-acid change is not the sentinel, each once and in the order in
    which the set of these values is iterated, and the cell of a group
    and a change is 1 when some row of the table has that group and that
    change, and 0 otherwise. *)
Theorem consensus_matrix iter (df : frame) (aa fid : list string) :
  enumeration iter →
  df !! "AAChange.refGene" = Some aa →
  df !! "final_id" = Some fid →
  ∃ m, cosmic_common_consensus_df iter df = Ok m ∧
       index_name m = Some "Case.ID" ∧
       columns m = iter (list_to_set (take_mask (series_ne aa ".") aa)) ∧
       (rows m).*1 = iter (list_to_set (take_mask (series_ne aa ".") fid)) ∧
       NoDup (columns m) ∧
       (∀ x, x ∈ columns m ↔ x ∈ aa ∧ x ≠ ".") ∧
       NoDup (rows m).*1 ∧
       (∀ s, s ∈ (rows m).*1 ↔
             ∃ (i : nat) a, aa !! i = Some a ∧ a ≠ "." ∧ fid !! i = Some s) ∧
       ∀ s cells, (s, cells) ∈ rows m →
         length cells = length (columns m) ∧
         ∀ (j : nat) x, columns m !! j = Some x →
           cells !! j = Some (CInt 1) ∧ (∃ i : nat, aa !! i = Some x ∧ fid !! i = Some s) ∨
           cells !! j = Some (CInt 0) ∧ ¬ (∃ i : nat, aa !! i = Some x ∧ fid !! i = Some s).
Proof.
  intros Hiter Haa Hfid.
  set (kept := series_ne aa ".").
  set (sub := getitem_mask df kept).
  set (muts := iter (list_to_set (take_mask kept aa))).
  set (ids := iter (list_to_set (take_mask kept fid))).
  assert (sub !! "AAChange.refGene" = Some (take_mask kept aa)) as Haa'
    by (unfold sub; by rewrite getitem_mask_lookup, Haa).
  assert (sub !! "final_id" = Some (take_mask kept fid)) as Hfid'
    by (unfold sub; by rewrite getitem_mask_lookup, Hfid).
  pose proof (consensus_rows sub muts _ _ ids Hfid' Haa') as Hrows.
  eexists. split.
  { unfold cosmic_common_consensus_df, getitem. rewrite Haa. simpl.
    fold kept. fold sub. rewrite Haa'. simpl. fold muts. rewrite Hfid'. simpl.
    fold ids. rewrite for_each_consensus_body, Hrows. simpl.
    unfold set_index_name, DataFrame. simpl. rewrite zip_fst_snd. reflexivity. }
  simpl. split; [done|]. split; [done|].
  assert (∀ x, x ∈ take_mask kept aa ↔ x ∈ aa ∧ x ≠ ".") as Hkept.
  { intros x. rewrite take_mask_elem_of. split.
    - intros (i & Hm & Hx). apply series_ne_lookup in Hm as (c & Hc & Hne).
      assert (c = x) as -> by congruence.
      split; [by eapply list_elem_of_lookup_2|done].
    - intros [(i & Hx)%list_elem_of_lookup Hne]. exists i. split; [|done].
      apply series_ne_lookup. eauto. }
  split; [by rewrite <-list_fmap_compose, list_fmap_id|].
  split; [apply Hiter|].
  split.
  { intros x. fold muts. unfold muts.
    rewrite (proj2 (Hiter _)), elem_of_list_to_set. apply Hkept. }
  rewrite <-list_fmap_compose, list_fmap_id.
  split; [apply Hiter|].
  split.
  { intros s. unfold ids. rewrite (proj2 (Hiter _)), elem_of_list_to_set.
    rewrite take_mask_elem_of. split.
    - intros (i & Hm & Hs). apply series_ne_lookup in Hm as (c & Hc & Hne).
      by exists i, c.
    - intros (i & a & Ha & Hne & Hs). exists i. split; [|done].
      apply series_ne_lookup. eauto. }
  intros s cells (s' & [= <- ->] & Hs)%list_elem_of_fmap.
  split; [by rewrite length_fmap|].
  intros j x Hx. rewrite list_lookup_fmap, Hx. simpl.
  assert (x ∈ muts) as Hxm by (by eapply list_elem_of_lookup_2).
  unfold muts in Hxm. rewrite (proj2 (Hiter _)), elem_of_list_to_set, Hkept in Hxm.
  destruct Hxm as [_ Hne].
  assert (x ∈ take_mask (series_eq (take_mask kept fid) s) (take_mask kept aa) ↔
          ∃ i : nat, aa !! i = Some x ∧ fid !! i = Some s) as Hiff.
  { rewrite take_mask_elem_of.
    setoid_rewrite series_eq_lookup.
    rewrite (take_mask_aligned kept fid aa s x). split.
    - intros (i & _ & ? & ?). by exists i.
    - intros (i & ? & ?). exists i. split; [|done].
      apply series_ne_lookup. eauto. }
  case_bool_decide as Hin; [left|right]; (split; [done|]); by rewrite <-Hiff.
Qed.

Lemma consensus_matrix_witness :
  let aa := ["KRAS:p.G12D"; "."; "TP53:p.R175H"; "KRAS:p.G12D"] in
  let fid := ["008-M2-F0"; "008-M2-F0"; "019-F5"; "019-F5"] in
  let df : frame := <["AAChange.refGene" := aa]> (<["final_id" := fid]> ∅) in
  ∃ m, cosmic_common_consensus_df elements df = Ok m ∧
       index_name m = Some "Case.ID" ∧
       columns m = elements (list_to_set (take_mask (series_ne aa ".") aa) : gset string) ∧
       (rows m).*1 = elements (list_to_set (take_mask (series_ne aa ".") fid) : gset string) ∧
       NoDup (columns m) ∧
       (∀ x, x ∈ columns m ↔ x ∈ aa ∧ x ≠ ".") ∧
       NoDup (rows m).*1 ∧
       (∀ s, s ∈ (rows m).*1 ↔
             ∃ (i : nat) a, aa !! i = Some a ∧ a ≠ "." ∧ fid !! i = Some s) ∧
       ∀ s cells, (s, cells) ∈ rows m →
         length cells = length (columns m) ∧
         ∀ (j : nat) x, columns m !! j = Some x →
           cells !! j = Some (CInt 1) ∧ (∃ i : nat, aa !! i = Some x ∧ fid !! i = Some s) ∨
           cells !! j = Some (CInt 0) ∧ ¬ (∃ i : nat, aa !! i = Some x ∧ fid !! i = Some s).
Proof.
  intros aa fid df.
  apply (consensus_matrix elements df aa fid).
  - exact enumeration_elements.
  - reflexivity.
  - reflexivity.
Defined.

(** ** Running the builder again (C6) *)

Lemma file_rows_labels_None focus strip cosmic files rs :
  mapM (file_row focus strip cosmic None) files = Ok rs →
  rs.*1 = (fun f => PyStr.replace (file_name f) strip "") <$> files.
Proof.
  intros Hrs%file_rows_labels. rewrite mapM_fmap in Hrs. apply mapM_Ok in Hrs.
  induction Hrs as [|f sid files ids Hsid _ IH]; [done|].
  rewrite !fmap_cons, IH. by injection Hsid as <-.
Qed.

Lemma builder_listing_order focus strip cosmic files1 files2 :
  files1 ≡ₚ files2 →
  NoDup ((fun f => PyStr.replace (file_name f) strip "") <$> files1) →
  returned (process_variants focus strip cosmic None (Some files1)) =
  returned (process_variants focus strip cosmic None (Some files2)).
Proof.
  intros Hperm Hnd. rewrite !process_variants_eq.
  pose proof (mapM_Permutation (file_row focus strip cosmic None) _ _ Hperm) as H.
  destruct (mapM _ files1) as [rs1|] eqn:H1, (mapM _ files2) as [rs2|]; try done.
  simpl. do 2 f_equal. apply sort_rows_unique; [|done].
  by rewrite (file_rows_labels_None _ _ _ _ _ H1).
Qed.

Lemma mapM_bind_ret {A B C} (f : A → result B) (h : B → C) (l : list A) :
  mapM (fun x => y ← f x; mret (h y)) l = fmap h <$> mapM f l.
Proof.
  induction l as [|x l IH]; [done|].
  rewrite !mapM_cons, IH. destruct (f x); simpl; [|done].
  by destruct (mapM f l).
Qed.

Lemma Ok_bind {A B} (a : A) (f : A → result B) : Ok a ≫= f = f a.
Proof. reflexivity. Qed.

Lemma file_row_cosmic focus strip upd f :
  file_row focus strip true upd f =
  p ← cosmic_membership strip upd f; mret (prod_map id (fun g => g <$> focus) p).
Proof.
  unfold file_row, cosmic_membership.
  destruct (read_table f) as [df|]; [|done]. rewrite !Ok_bind.
  destruct (getitem df "cosmic70") as [c|] eqn:Hg; [|done]. rewrite !Ok_bind.
  assert (df !! "cosmic70" = Some c) as Hc.
  { unfold getitem in Hg. destruct (df !! "cosmic70"); by inversion Hg. }
  rewrite (variant_class_Some focus true _ (take_mask (series_ne c ".") c)).
  - rewrite Ok_bind. by destruct (sample_id strip upd (file_name f)).
  - cbn [relevant_column]. by rewrite getitem_mask_lookup, Hc.
Qed.

(** In COSMIC mode the rows can be sorted before the features are
    known. *)
Lemma process_variants_cosmic focus strip upd files :
  process_variants focus strip true upd (Some files) =
  ps ← mapM (cosmic_membership strip upd) files;
  mret (Matrix (Some "Case.ID") focus
               (prod_map id (fun g => g <$> focus) <$> sort_rows ps)).
Proof.
  rewrite process_variants_eq.
  rewrite (mapM_ext_in _ (fun f => p ← cosmic_membership strip upd f;
                                   mret (prod_map id (fun g => g <$> focus) p)))
    by (intros; apply file_row_cosmic).
  rewrite mapM_bind_ret.
  destruct (mapM _ files) as [ps|]; simpl; [|done].
  by rewrite sort_rows_fmap.
Qed.

Lemma cosmic_labels strip files ps :
  mapM (cosmic_membership strip None) files = Ok ps →
  ps.*1 = (fun f => PyStr.replace (file_name f) strip "") <$> files.
Proof.
  intros Hps%mapM_Ok.
  induction Hps as [|f p files ps Hp _ IH]; [done|].
  rewrite !fmap_cons, IH. f_equal.
  unfold cosmic_membership in Hp.
  destruct (read_table f) as [df|]; simpl in Hp; [|done].
  destruct (getitem df "cosmic70"); simpl in Hp; [|done].
  by injection Hp as <-.
Qed.

(** Two orders of the same features, two listings of the same files:
    the matrices of COSMIC mode differ in the order of columns only. *)
Lemma cosmic_feature_order focus1 focus2 strip files1 files2 :
  focus1 ≡ₚ focus2 →
  files1 ≡ₚ files2 →
  NoDup ((fun f => PyStr.replace (file_name f) strip "") <$> files1) →
  option_Forall2 same_cells
    (returned (process_variants focus1 strip true None (Some files1)))
    (returned (process_variants focus2 strip true None (Some files2))).
Proof.
  intros Hfocus Hperm Hnd. rewrite !process_variants_cosmic.
  pose proof (mapM_Permutation (cosmic_membership strip None) _ _ Hperm) as H.
  destruct (mapM _ files1) as [ps1|] eqn:H1, (mapM _ files2) as [ps2|];
    try done; [|constructor].
  simpl. constructor.
  assert (sort_rows ps2 = sort_rows ps1) as ->.
  { symmetry. apply sort_rows_unique; [|done]. by rewrite (cosmic_labels _ _ _ H1). }
  unfold same_cells. simpl.
  split; [done|]. split; [done|]. split.
  { rewrite <-!list_fmap_compose. apply list_fmap_ext. by intros ? [? ?] ?. }
  intros i j1 j2 r1 r2 F Hr1 Hr2 HF1 HF2.
  rewrite list_lookup_fmap in Hr1, Hr2.
  destruct (sort_rows ps1 !! i) as [[sid g]|]; simpl in *; [|done].
  injection Hr1 as <-. injection Hr2 as <-. simpl.
  by rewrite !list_lookup_fmap, HF1, HF2.
Qed.

Lemma enumeration_Permutation iter1 iter2 (X : gset string) :
  enumeration iter1 → enumeration iter2 → iter1 X ≡ₚ iter2 X.
Proof.
  intros H1 H2. apply NoDup_Permutation; [apply H1|apply H2|].
  intros x. by rewrite (proj2 (H1 X)), (proj2 (H2 X)).
Qed.

Lemma enumeration_reverse : enumeration (reverse ∘ elements).
Proof.
  intros X. simpl. split; [rewrite reverse_Permutation; apply NoDup_elements|].
  intros x. by rewrite elem_of_reverse, elem_of_elements.
Qed.

(** What the four cells have written depends on the matrices returned
    only. *)
Lemma written_by_cells (a1 a2 a3 a4 b1 b2 b3 b4 : result matrix) p1 p2 p3 p4 written :
  returned a1 = returned b1 → returned a2 = returned b2 →
  returned a3 = returned b3 → returned a4 = returned b4 →
  ((df ← compute a1; _ ← to_csv df p1; df ← compute a2; _ ← to_csv df p2;
    df ← compute a3; _ ← to_csv df p3; df ← compute a4; to_csv df p4) written).1 =
  ((df ← compute b1; _ ← to_csv df p1; df ← compute b2; _ ← to_csv df p2;
    df ← compute b3; _ ← to_csv df p3; df ← compute b4; to_csv df p4) written).1.
Proof.
  intros H1 H2 H3 H4. unfold mbind, script_bind, compute, to_csv.
  destruct a1, b1; simplify_eq/=; [|done].
  destruct a2, b2; simplify_eq/=; [|done].
  destruct a3, b3; simplify_eq/=; [|done].
  destruct a4, b4; simplify_eq/=; done.
Qed.

(** C6, as stated, fails.  (1) The features of the two calls in COSMIC
    mode are a set, and two runs that iterate it in two orders write
    their columns in two orders.  (2) With one and the same feature list,
    the sorting by label does not make the rows independent of the order
    of the listing when two files have the same identifier. *)
Lemma rerun_changes_output :
  let cosmic_all_df : frame :=
    <["cosmic70" := ["ID=COSM1"; "ID=COSM2"; "ID=COSM1"]]>
      (<["Gene.refGene" := ["KRAS"; "TP53"; "KRAS"]]> ∅) in
  let replicates :=
    Some [VariantFile "A_001_processed_variants.tsv.bz2"
            (Ok (<["cosmic70" := ["ID=COSM1"; "."]]> (<["Gene.refGene" := ["KRAS"; "TTN"]]> ∅)))] in
  let fa := VariantFile "KS27_processed_variants.tsv.bz2"
              (Ok (<["cosmic70" := ["ID=COSM521"]]> (<["Gene.refGene" := ["KRAS"]]> ∅))) in
  let fb := VariantFile "KS27"
              (Ok (<["cosmic70" := ["ID=COSM1"]]> (<["Gene.refGene" := ["TP53"]]> ∅))) in
  (enumeration elements ∧ enumeration (reverse ∘ elements) ∧
   replicate_cosmic_df elements cosmic_all_df replicates =
     Ok (Matrix (Some "Case.ID") ["ID=COSM1"; "ID=COSM2"] [("A", [CInt 1; CInt 0])]) ∧
   replicate_cosmic_df (reverse ∘ elements) cosmic_all_df replicates =
     Ok (Matrix (Some "Case.ID") ["ID=COSM2"; "ID=COSM1"] [("A", [CInt 0; CInt 1])])) ∧
  ([fa; fb] ≡ₚ [fb; fa] ∧
   process_variants ["KRAS"; "ATM"; "RNF43"] merged_strip_text false None (Some [fa; fb]) =
     Ok (Matrix (Some "Case.ID") ["KRAS"; "ATM"; "RNF43"]
           [("KS27", [CStr "MUT;"; CStr ""; CStr ""]); ("KS27", [CStr ""; CStr ""; CStr ""])]) ∧
   process_variants ["KRAS"; "ATM"; "RNF43"] merged_strip_text false None (Some [fb; fa]) =
     Ok (Matrix (Some "Case.ID") ["KRAS"; "ATM"; "RNF43"]
           [("KS27", [CStr ""; CStr ""; CStr ""]); ("KS27", [CStr "MUT;"; CStr ""; CStr ""])])).
Proof.
  split.
  - split; [exact enumeration_elements|]. split; [exact enumeration_reverse|].
    split; by vm_compute.
  - split; [apply perm_swap|]. split; by vm_compute.
Qed.

(** C6 (amended): two runs of the four calls on the same inputs (the
    same directory contents, listed in any two orders, the same feature
    list [genes] for the two calls in gene mode, the same set of COSMIC
    identifiers for the two calls in COSMIC mode, the same parameters)
    write the same four files, provided that the derived identifiers of
    the files of each directory are pairwise distinct and that the set
    is iterated in the same order in both runs.  The two calls in gene
    mode, whose features are a list, return the same matrix under the
    first condition alone.  When the set is iterated in another order,
    the two calls in COSMIC mode return matrices with the same rows and
    the same cell for every sample and COSMIC identifier, the columns
    coming in another order. *)
Theorem rerun_same_output iter1 iter2 (cosmic_all_df : frame) (genes : list string)
    (rep1 rep2 mer1 mer2 : list variant_file) (written : gmap string matrix) :
  enumeration iter1 → enumeration iter2 →
  rep1 ≡ₚ rep2 → mer1 ≡ₚ mer2 →
  NoDup ((fun f => PyStr.replace (file_name f) replicate_strip_text "") <$> rep1) →
  NoDup ((fun f => PyStr.replace (file_name f) merged_strip_text "") <$> mer1) →
  ((df ← compute (process_variants genes replicate_strip_text false None (Some rep1));
    _ ← to_csv df "results/oncoprint_replicates.tsv";
    df ← compute (process_variants genes merged_strip_text false None (Some mer1));
    _ ← to_csv df "results/oncoprint_merged.tsv";
    df ← compute (replicate_cosmic_df iter1 cosmic_all_df (Some rep1));
    _ ← to_csv df "results/cosmic_similarity_replicates.tsv";
    df ← compute (merged_cosmic_df iter1 cosmic_all_df (Some mer1));
    to_csv df "results/cosmic_similarity_merged.tsv") written).1 =
  ((df ← compute (process_variants genes replicate_strip_text false None (Some rep2));
    _ ← to_csv df "results/oncoprint_replicates.tsv";
    df ← compute (process_variants genes merged_strip_text false None (Some mer2));
    _ ← to_csv df "results/oncoprint_merged.tsv";
    df ← compute (replicate_cosmic_df iter1 cosmic_all_df (Some rep2));
    _ ← to_csv df "results/cosmic_similarity_replicates.tsv";
    df ← compute (merged_cosmic_df iter1 cosmic_all_df (Some mer2));
    to_csv df "results/cosmic_similarity_merged.tsv") written).1 ∧
  returned (process_variants genes replicate_strip_text false None (Some rep1)) =
    returned (process_variants genes replicate_strip_text false None (Some rep2)) ∧
  returned (process_variants genes merged_strip_text false None (Some mer1)) =
    returned (process_variants genes merged_strip_text false None (Some mer2)) ∧
  option_Forall2 same_cells
    (returned (replicate_cosmic_df iter1 cosmic_all_df (Some rep1)))
    (returned (replicate_cosmic_df iter2 cosmic_all_df (Some rep2))) ∧
  option_Forall2 same_cells
    (returned (merged_cosmic_df iter1 cosmic_all_df (Some mer1)))
    (returned (merged_cosmic_df iter2 cosmic_all_df (Some mer2))).
Proof.
  intros Hiter1 Hiter2 Hrep Hmer Hnd_rep Hnd_mer.
  pose proof (builder_listing_order genes replicate_strip_text false _ _ Hrep Hnd_rep)
    as Hg1.
  pose proof (builder_listing_order genes merged_strip_text false _ _ Hmer Hnd_mer)
    as Hg2.
  split; [|split; [done|split; [done|split]]].
  - apply written_by_cells; try done.
    + unfold replicate_cosmic_df.
      destruct (unique_cosmic_ids cosmic_all_df); simpl; [|done].
      by apply builder_listing_order.
    + unfold merged_cosmic_df.
      destruct (unique_cosmic_ids cosmic_all_df); simpl; [|done].
      by apply builder_listing_order.
  - unfold replicate_cosmic_df.
    destruct (unique_cosmic_ids cosmic_all_df) as [X|]; simpl; [|constructor].
    apply cosmic_feature_order; [by apply enumeration_Permutation|done..].
  - unfold merged_cosmic_df.
    destruct (unique_cosmic_ids cosmic_all_df) as [X|]; simpl; [|constructor].
    apply cosmic_feature_order; [by apply enumeration_Permutation|done..].
Qed.

Lemma rerun_same_output_witness :
  let cosmic_all_df : frame :=
    <["cosmic70" := ["ID=COSM1"; "ID=COSM2"; "ID=COSM1"]]>
      (<["Gene.refGene" := ["KRAS"; "TP53"; "KRAS"]]> ∅) in
  let genes := ["KRAS"; "TP53"; "ATM"; "RNF43"] in
  let a : frame := <["cosmic70" := ["ID=COSM1"; "."]]> (<["Gene.refGene" := ["KRAS"; "TTN"]]> ∅) in
  let b : frame := <["cosmic70" := ["ID=COSM2"]]> (<["Gene.refGene" := ["TP53"]]> ∅) in
  let ra := VariantFile "A_001_processed_variants.tsv.bz2" (Ok a) in
  let rb := VariantFile "B_001_processed_variants.tsv.bz2" (Ok b) in
  let ma := VariantFile "A_processed_variants.tsv.bz2" (Ok a) in
  let mb := VariantFile "B_processed_variants.tsv.bz2" (Ok b) in
  ((df ← compute (process_variants genes replicate_strip_text false None (Some [ra; rb]));
    _ ← to_csv df "results/oncoprint_replicates.tsv";
    df ← compute (process_variants genes merged_strip_text false None (Some [ma; mb]));
    _ ← to_csv df "results/oncoprint_merged.tsv";
    df ← compute (replicate_cosmic_df elements cosmic_all_df (Some [ra; rb]));
    _ ← to_csv df "results/cosmic_similarity_replicates.tsv";
    df ← compute (merged_cosmic_df elements cosmic_all_df (Some [ma; mb]));
    to_csv df "results/cosmic_similarity_merged.tsv") ∅).1 =
  ((df ← compute (process_variants genes replicate_strip_text false None (Some [rb; ra]));
    _ ← to_csv df "results/oncoprint_replicates.tsv";
    df ← compute (process_variants genes merged_strip_text false None (Some [mb; ma]));
    _ ← to_csv df "results/oncoprint_merged.tsv";
    df ← compute (replicate_cosmic_df elements cosmic_all_df (Some [rb; ra]));
    _ ← to_csv df "results/cosmic_similarity_replicates.tsv";
    df ← compute (merged_cosmic_df elements cosmic_all_df (Some [mb; ma]));
    to_csv df "results/cosmic_similarity_merged.tsv") ∅).1 ∧
  returned (process_variants genes replicate_strip_text false None (Some [ra; rb])) =
    returned (process_variants genes replicate_strip_text false None (Some [rb; ra])) ∧
  returned (process_variants genes merged_strip_text false None (Some [ma; mb])) =
    returned (process_variants genes merged_strip_text false None (Some [mb; ma])) ∧
  option_Forall2 same_cells
    (returned (replicate_cosmic_df elements cosmic_all_df (Some [ra; rb])))
    (returned (replicate_cosmic_df (reverse ∘ elements) cosmic_all_df (Some [rb; ra]))) ∧
  option_Forall2 same_cells
    (returned (merged_cosmic_df elements cosmic_all_df (Some [ma; mb])))
    (returned (merged_cosmic_df (reverse ∘ elements) cosmic_all_df (Some [mb; ma]))).
Proof.
  intros cosmic_all_df genes a b ra rb ma mb.
  apply (rerun_same_output elements (reverse ∘ elements) cosmic_all_df genes
           [ra; rb] [rb; ra] [ma; mb] [mb; ma] ∅).
  - exact enumeration_elements.
  - exact enumeration_reverse.
  - apply perm_swap.
  - apply perm_swap.
  - vm_compute. apply NoDup_cons. split; [|apply NoDup_singleton].
    intros Hin%list_elem_of_singleton. discriminate Hin.
  - vm_compute. apply NoDup_cons. split; [|apply NoDup_singleton].
    intros Hin%list_elem_of_singleton. discriminate Hin.
Defined.

(** * Further properties of the notebook *)

(** ** Identifiers *)

Lemma str_contains_cons (old : string) (c : ascii) (s : string) :
  str_contains old (String c s) = false →
  PyStr.is_prefix old (String c s) = false ∧ str_contains old s = false.
Proof.
  cbn [str_contains]. intros H. by apply orb_false_iff in H.
Qed.

Lemma replace_scan_absent (old new s : string) :
  str_contains old s = false → PyStr.replace_scan old new 0 s = s.
Proof.
  induction s as [|c s IH]; intros H; [done|].
  apply str_contains_cons in H as [Hp Hs].
  cbn [PyStr.replace_scan]. rewrite Hp. f_equal. by apply IH.
Qed.

(** X1: a file name in which the strip text does not occur is its own
    identifier (no remapping table): nothing is stripped, and no error is
    raised for the missing suffix. *)
Theorem sample_id_without_strip_text strip name :
  str_contains strip name = false →
  sample_id strip None name = Ok name.
Proof.
  intros H. unfold sample_id. simpl. f_equal. unfold PyStr.replace.
  destruct strip as [|c strip'].
  - by destruct name.
  - by apply replace_scan_absent.
Qed.

Lemma sample_id_without_strip_text_witness :
  sample_id merged_strip_text None "KS27_001_merged.tsv" = Ok "KS27_001_merged.tsv".
Proof.
  apply (sample_id_without_strip_text merged_strip_text "KS27_001_merged.tsv").
  reflexivity.
Defined.

Lemma is_prefix_str_from (p s : string) :
  PyStr.is_prefix p s = true →
  p +:+ str_from (String.length p) s = s ∧ (String.length p ≤ String.length s)%nat.
Proof.
  revert s. induction p as [|a p IH]; intros s H.
  - split; [by destruct s|simpl; lia].
  - destruct s as [|b s]; [done|]. simpl in H.
    case_decide as Hab; [|done]. subst b.
    destruct (IH s H) as [Heq Hlen]. split.
    + change (String a (p +:+ str_from (String.length p) s) = String a s).
      by rewrite Heq.
    + simpl. lia.
Qed.

Lemma replace_scan_same (old s : string) (k : nat) :
  old ≠ "" →
  (k ≤ String.length s)%nat → PyStr.replace_scan old old k s = str_from k s.
Proof.
  intros Hold. revert k. induction s as [|c s IH]; intros k Hk.
  - destruct k; [done|simpl in Hk; lia].
  - destruct k as [|k].
    + cbn [PyStr.replace_scan str_from].
      destruct (PyStr.is_prefix old (String c s)) eqn:Hp.
      * destruct old as [|a old]; [done|].
        pose proof (is_prefix_str_from _ _ Hp) as [Heq Hlen].
        cbn [String.length] in Hlen. cbn [String.length str_from] in Heq.
        cbn [String.length].
        replace (S (String.length old) - 1)%nat with (String.length old) by lia.
        rewrite IH by lia. exact Heq.
      * f_equal. rewrite IH by lia. by destruct s.
    + simpl in Hk. cbn [PyStr.replace_scan str_from]. apply IH. lia.
Qed.

Lemma replace_same (s old : string) : PyStr.replace s old old = s.
Proof.
  unfold PyStr.replace. destruct old as [|a old'].
  - induction s as [|c s IH]; [done|]. simpl.
    change (String c (PyStr.replace_empty "" s) = String c s). by rewrite IH.
  - rewrite replace_scan_same; [by destruct s|done|lia].
Qed.

(** X2: a remapping table that maps the prefix token of a file name to
    itself gives the whole file name as identifier, with the suffix that
    the strip text names still on it. *)
Theorem sample_id_identity_remap strip (d : gmap string string) name :
  d !! PyStr.split_head "_"%char name = Some (PyStr.split_head "_"%char name) →
  sample_id strip (Some d) name = Ok name.
Proof.
  intros Hd. unfold sample_id, dict_getitem. rewrite Hd. simpl.
  by rewrite replace_same.
Qed.

Lemma sample_id_identity_remap_witness :
  sample_id merged_strip_text (Some {["KS27" := "KS27"]}) "KS27_processed_variants.tsv.bz2" =
  Ok "KS27_processed_variants.tsv.bz2".
Proof.
  apply (sample_id_identity_remap merged_strip_text {["KS27" := "KS27"]}
           "KS27_processed_variants.tsv.bz2").
  reflexivity.
Defined.

(** X3: the prefix token [name.split('_')[0]] is a prefix of the name
    and holds no underscore; it is the whole name when the name holds
    none. *)
Theorem split_head_prefix (sep : ascii) (s : string) :
  PyStr.is_prefix (PyStr.split_head sep s) s = true ∧
  str_contains (String sep "") (PyStr.split_head sep s) = false ∧
  (str_contains (String sep "") s = false → PyStr.split_head sep s = s).
Proof.
  induction s as [|c s (IH1 & IH2 & IH3)]; [done|].
  cbn [PyStr.split_head]. case_decide as Hc.
  - subst c. split; [done|]. split; [done|].
    intros H. apply str_contains_cons in H as [H _]. simpl in H.
    by rewrite decide_True in H.
  - split; [simpl; by rewrite decide_True|]. split.
    + cbn [str_contains]. rewrite IH2. simpl.
      rewrite decide_False by congruence. done.
    + intros H. apply str_contains_cons in H as [_ H]. f_equal. by apply IH3.
Qed.

(** X4: with a remapping table, a file whose prefix token is not a key
    of the table makes the identifier raise [KeyError] on that token, and
    the builder raises: no default identifier is used. *)
Theorem missing_key_raises focus strip cosmic (d : gmap string string) files f :
  f ∈ files →
  d !! PyStr.split_head "_"%char (file_name f) = None →
  sample_id strip (Some d) (file_name f) =
    Raise (KeyError (PyStr.split_head "_"%char (file_name f))) ∧
  ∃ e, process_variants focus strip cosmic (Some d) (Some files) = Raise e.
Proof.
  intros Hf Hd.
  assert (sample_id strip (Some d) (file_name f) =
          Raise (KeyError (PyStr.split_head "_"%char (file_name f)))) as Hsid.
  { unfold sample_id, dict_getitem. by rewrite Hd. }
  split; [done|].
  assert (∃ e, file_row focus strip cosmic (Some d) f = Raise e) as [e0 He0].
  { unfold file_row.
    destruct (read_table f) as [df|]; [|by eexists]. rewrite Ok_bind.
    destruct (getitem df "cosmic70") as [c|]; [|by eexists]. rewrite Ok_bind.
    destruct (variant_class _ _ _) as [vc|]; [|by eexists]. rewrite Ok_bind.
    rewrite Hsid. by eexists. }
  destruct (mapM_raises _ _ _ _ Hf He0) as [e He].
  exists e. by apply process_variants_Raise.
Qed.

Lemma missing_key_raises_witness :
  let df : frame := <["cosmic70" := ["ID=COSM521"]]> (<["Gene.refGene" := ["KRAS"]]> ∅) in
  let f := VariantFile "019_processed_variants.tsv.bz2" (Ok df) in
  let d : gmap string string := {["001" := "KS27"]} in
  sample_id merged_strip_text (Some d) (file_name f) =
    Raise (KeyError (PyStr.split_head "_"%char (file_name f))) ∧
  ∃ e, process_variants ["KRAS"] merged_strip_text false (Some d) (Some [f]) = Raise e.
Proof.
  intros df f d.
  apply (missing_key_raises ["KRAS"] merged_strip_text false d [f] f).
  - left.
  - reflexivity.
Defined.

(** ** The builder *)

(** X5: every cell of a matrix of the builder is one of the two values
    of its mode: 0 or 1 in COSMIC mode, the empty string or ['MUT;'] in
    gene mode; no count and no gene name is ever written. *)
Theorem cells_two_valued focus strip cosmic upd files m r c :
  process_variants focus strip cosmic upd (Some files) = Ok m →
  r ∈ rows m → c ∈ r.2 →
  c = found cosmic ∨ c = missing cosmic.
Proof.
  intros (rs & Hrs & ->)%process_variants_Ok Hr Hc. simpl in Hr.
  rewrite sort_rows_Permutation in Hr. destruct r as [sid cells].
  destruct (mapM_Ok_elem_of_r _ _ _ _ Hrs Hr) as (f & _ & Hrow).
  apply file_row_Ok in Hrow as (df & _ & _ & Hlen & Hcells).
  apply list_elem_of_lookup in Hc as [j Hj].
  destruct (focus !! j) as [F|] eqn:HF.
  - destruct (Hcells j F HF) as [[Hf _]|[Hf _]]; simpl in Hj; [left|right]; congruence.
  - apply lookup_ge_None in HF. apply lookup_lt_Some in Hj. simpl in Hj. lia.
Qed.

Lemma cells_two_valued_witness :
  CStr "MUT;" = found false ∨ CStr "MUT;" = missing false.
Proof.
  apply (cells_two_valued ["KRAS"] merged_strip_text false None
           [VariantFile "A_processed_variants.tsv.bz2"
              (Ok (<["cosmic70" := ["ID=COSM521"]]> (<["Gene.refGene" := ["KRAS"]]> ∅)))]
           (Matrix (Some "Case.ID") ["KRAS"] [("A", [CStr "MUT;"])])
           ("A", [CStr "MUT;"]) (CStr "MUT;")).
  - vm_compute. reflexivity.
  - left.
  - left.
Defined.

Lemma usable_file_row focus strip cosmic f :
  ¬ unusable focus cosmic f → ∃ r, file_row focus strip cosmic None f = Ok r.
Proof.
  unfold unusable, file_row. destruct (read_table f) as [df|e]; [|by intros []].
  intros Hok. rewrite Ok_bind. unfold getitem at 1.
  destruct (df !! "cosmic70") as [c|] eqn:Hc; [|by destruct Hok; left].
  rewrite Ok_bind.
  set (sub := getitem_mask df (series_ne c ".")).
  assert (∃ vc, variant_class focus cosmic sub = Ok vc) as [vc ->].
  { destruct (sub !! relevant_column cosmic) as [col|] eqn:Hcol.
    - rewrite (variant_class_Some _ _ _ col) by done. by eexists.
    - rewrite variant_class_None by done.
      destruct focus as [|x focus]; [by eexists|]. exfalso. apply Hok. right.
      unfold sub in Hcol. rewrite getitem_mask_lookup in Hcol.
      destruct cosmic; simpl in Hcol; [by rewrite Hc in Hcol|].
      split; [done|]. split; [done|].
      by destruct (df !! "Gene.refGene"). }
  rewrite Ok_bind. simpl. by eexists.
Qed.

Lemma mapM_all_Ok {A B} (f : A → result B) (l : list A) :
  (∀ x, x ∈ l → ∃ y, f x = Ok y) → ∃ k, mapM f l = Ok k.
Proof.
  induction l as [|x l IH]; intros H; [by eexists|].
  destruct (H x) as [y Hy]; [by left|].
  destruct IH as [k Hk]; [intros z Hz; apply H; by right|].
  exists (y :: k). by rewrite mapM_cons, Hy, Hk.
Qed.

(** X6: without a remapping table the builder returns a matrix exactly
    when every file of the directory can be read and has the column
    [cosmic70] and, in gene mode with at least one feature, the column
    [Gene.refGene].  In COSMIC mode, and for an empty feature list, the
    gene column is not needed. *)
Theorem builder_returns_iff focus strip cosmic files :
  (∃ m, process_variants focus strip cosmic None (Some files) = Ok m) ↔
  (∀ f, f ∈ files → ¬ unusable focus cosmic f).
Proof.
  split.
  - intros [m Hm] f Hf Hbad.
    destruct (unusable_file_row focus strip cosmic None f Hbad) as [e0 He0].
    destruct (mapM_raises _ _ _ _ Hf He0) as [e He].
    apply process_variants_Raise in He. congruence.
  - intros Hok.
    destruct (mapM_all_Ok (file_row focus strip cosmic None) files) as [rs Hrs].
    { intros f Hf. apply usable_file_row. by apply Hok. }
    eexists. apply process_variants_Ok. by exists rs.
Qed.

Lemma mapM_first_Raise {A B} (f : A → result B) (l1 l2 : list A) (x : A) (e : error) :
  (∀ z, z ∈ l1 → ∃ y, f z = Ok y) → f x = Raise e →
  mapM f (l1 ++ x :: l2) = Raise e.
Proof.
  intros Hok Hx. induction l1 as [|z l1 IH]; simpl.
  - by rewrite Hx.
  - destruct (Hok z) as [y Hy]; [by left|]. rewrite Hy. simpl.
    rewrite IH; [done|]. intros z' Hz'. apply Hok. by right.
Qed.

(** X7: the exception that the builder hands on is the one of the first
    file of the listing that cannot be read; the files listed after it
    have no influence, whatever they hold. *)
Theorem first_unreadable_file_decides focus strip cosmic before f after e :
  (∀ g, g ∈ before → ¬ unusable focus cosmic g) →
  read_table f = Raise e →
  process_variants focus strip cosmic None (Some (before ++ f :: after)) = Raise e.
Proof.
  intros Hok Hf. apply process_variants_Raise, mapM_first_Raise.
  - intros g Hg. apply usable_file_row. by apply Hok.
  - unfold file_row. by rewrite Hf.
Qed.

Lemma first_unreadable_file_decides_witness :
  let df : frame := <["cosmic70" := ["ID=COSM521"]]> (<["Gene.refGene" := ["KRAS"]]> ∅) in
  process_variants ["KRAS"] merged_strip_text false None
    (Some ([VariantFile "A_processed_variants.tsv.bz2" (Ok df)] ++
           VariantFile "B_processed_variants.tsv.bz2" (Raise ParserError) ::
           [VariantFile "C_processed_variants.tsv.bz2" (Raise FileNotFoundError)])) =
  Raise ParserError.
Proof.
  intros df.
  apply (first_unreadable_file_decides ["KRAS"] merged_strip_text false
           [VariantFile "A_processed_variants.tsv.bz2" (Ok df)]
           (VariantFile "B_processed_variants.tsv.bz2" (Raise ParserError))
           [VariantFile "C_processed_variants.tsv.bz2" (Raise FileNotFoundError)]
           ParserError).
  - intros g Hg%list_elem_of_singleton. subst g. unfold unusable. simpl.
    intros [H|(_ & _ & H)]; discriminate H.
  - reflexivity.
Defined.

(** X8: in COSMIC mode the sentinel ['.'], when it is among the
    features, is never marked: its column is all zero, also for the
    files that hold rows with the sentinel. *)
Theorem sentinel_never_marked focus strip upd files m (j : nat) r :
  process_variants focus strip true upd (Some files) = Ok m →
  focus !! j = Some "." →
  r ∈ rows m →
  r.2 !! j = Some (CInt 0).
Proof.
  intros (rs & Hrs & ->)%process_variants_Ok HF Hr. simpl in Hr.
  rewrite sort_rows_Permutation in Hr. destruct r as [sid cells].
  destruct (mapM_Ok_elem_of_r _ _ _ _ Hrs Hr) as (f & _ & Hrow).
  apply file_row_Ok in Hrow as (df & _ & _ & _ & Hcells).
  destruct (Hcells j "." HF) as [[_ Hfl]|[? _]]; [|done].
  destruct Hfl as (c70 & col & i & c & Hc & Hcol & Hi & Hne & Hx).
  simpl in Hcol. congruence.
Qed.

Lemma sentinel_never_marked_witness :
  ("A", [CInt 1; CInt 0]).2 !! 1 = Some (CInt 0).
Proof.
  apply (sentinel_never_marked ["ID=COSM1"; "."] merged_strip_text None
           [VariantFile "A_processed_variants.tsv.bz2"
              (Ok (<["cosmic70" := ["ID=COSM1"; "."]]> ∅))]
           (Matrix (Some "Case.ID") ["ID=COSM1"; "."] [("A", [CInt 1; CInt 0])])
           1 ("A", [CInt 1; CInt 0])).
  - vm_compute. reflexivity.
  - reflexivity.
  - left.
Defined.

Lemma variant_class_same_column focus cosmic (sub sub' : frame) :
  sub !! relevant_column cosmic = sub' !! relevant_column cosmic →
  variant_class focus cosmic sub = variant_class focus cosmic sub'.
Proof.
  intros Heq. destruct (sub !! relevant_column cosmic) as [col|] eqn:Hcol.
  - rewrite (variant_class_Some _ _ sub col), (variant_class_Some _ _ sub' col); done.
  - rewrite (variant_class_None _ _ sub), (variant_class_None _ _ sub'); done.
Qed.

Lemma file_row_same focus strip cosmic upd f f' :
  same_for_builder (relevant_column cosmic) f f' →
  file_row focus strip cosmic upd f = file_row focus strip cosmic upd f'.
Proof.
  intros [Hname Hsame]. unfold file_row. rewrite Hname.
  destruct (read_table f) as [df|e], (read_table f') as [df'|e']; try done;
    [|by subst].
  destruct Hsame as [Hc Hl]. rewrite !Ok_bind.
  assert (getitem df' "cosmic70" = getitem df "cosmic70") as ->
    by (unfold getitem; by rewrite Hc).
  destruct (getitem df "cosmic70") as [c|]; [|done]. rewrite !Ok_bind.
  rewrite (variant_class_same_column focus cosmic _
             (getitem_mask df' (series_ne c "."))); [done|].
  by rewrite !getitem_mask_lookup, Hl.
Qed.

(** X9: the builder reads two columns of a table and nothing else: two
    directories whose files have the same names in the same order and
    tables with the same column [cosmic70] and the same relevant column
    give the same result, whatever their other columns are. *)
Theorem builder_reads_two_columns focus strip cosmic upd files files' :
  Forall2 (same_for_builder (relevant_column cosmic)) files files' →
  process_variants focus strip cosmic upd (Some files) =
  process_variants focus strip cosmic upd (Some files').
Proof.
  intros Hsame. rewrite !process_variants_eq.
  assert (mapM (file_row focus strip cosmic upd) files =
          mapM (file_row focus strip cosmic upd) files') as ->; [|done].
  induction Hsame as [|f f' files files' Hf _ IH]; [done|].
  by rewrite !mapM_cons, IH, (file_row_same _ _ _ _ f f').
Qed.

Lemma builder_reads_two_columns_witness :
  let df : frame := <["cosmic70" := ["ID=COSM521"]]> (<["Gene.refGene" := ["KRAS"]]> ∅) in
  let df' : frame := <["AAChange.refGene" := ["KRAS:p.G12D"]]> df in
  process_variants ["KRAS"] merged_strip_text false None
    (Some [VariantFile "A_processed_variants.tsv.bz2" (Ok df)]) =
  process_variants ["KRAS"] merged_strip_text false None
    (Some [VariantFile "A_processed_variants.tsv.bz2" (Ok df')]).
Proof.
  intros df df'.
  apply (builder_reads_two_columns ["KRAS"] merged_strip_text false None
           [VariantFile "A_processed_variants.tsv.bz2" (Ok df)]
           [VariantFile "A_processed_variants.tsv.bz2" (Ok df')]).
  constructor; [|constructor]. split; [reflexivity|]. simpl. split; reflexivity.
Defined.




(** ** Value counts and the gene lists *)

Lemma occurrences_cons (x y : string) (col : list string) :
  occurrences x (y :: col) = ((if decide (y = x) then 1 else 0) + occurrences x col)%nat.
Proof.
  unfold occurrences. rewrite filter_cons. by case_decide.
Qed.

Lemma sum_list_with_add {A} (f g : A → nat) (l : list A) :
  sum_list_with (fun x => f x + g x)%nat l = (sum_list_with f l + sum_list_with g l)%nat.
Proof. induction l as [|x l IH]; simpl; [done|]. rewrite IH. lia. Qed.

Lemma sum_list_with_pointwise {A} (f g : A → nat) (l : list A) :
  (∀ x, f x = g x) → sum_list_with f l = sum_list_with g l.
Proof. intros H. induction l as [|x l IH]; simpl; [done|]. by rewrite H, IH. Qed.

Lemma sum_indicator (y : string) (l : list string) :
  NoDup l → y ∈ l →
  sum_list_with (fun x => if decide (y = x) then 1 else 0)%nat l = 1%nat.
Proof.
  induction 1 as [|x l Hx Hnd IH]; intros Hy; [by apply elem_of_nil in Hy|].
  simpl. case_decide as Hyx.
  - subst x. f_equal.
    clear IH Hy. induction l as [|z l IH]; simpl; [done|].
    rewrite decide_False by (intros ->; apply Hx; by left).
    apply IH; [by intros ?; apply Hx; right|by apply NoDup_cons in Hnd as [_ ?]].
  - apply elem_of_cons in Hy as [?|Hy]; [done|]. by rewrite IH.
Qed.

Lemma sum_occurrences (col l : list string) :
  NoDup l → (∀ x, x ∈ col → x ∈ l) →
  sum_list_with (fun x => occurrences x col) l = length col.
Proof.
  intros Hnd. induction col as [|y col IH]; intros Hin.
  - simpl. clear. induction l as [|x l IH]; simpl; [done|]. by rewrite IH.
  - rewrite (sum_list_with_pointwise _ (fun x => (if decide (y = x) then 1 else 0)
                                                  + occurrences x col)%nat)
      by (intros; apply occurrences_cons).
    rewrite sum_list_with_add, sum_indicator, IH; [done| |done|].
    + intros x Hx. apply Hin. by right.
    + apply Hin. by left.
Qed.

Lemma sum_list_fmap_with {A} (f : A → nat) (l : list A) :
  sum_list (f <$> l) = sum_list_with f l.
Proof.
  induction l as [|x l IH]; [done|].
  rewrite fmap_cons. cbn [sum_list_with]. by rewrite IH.
Qed.

(** X11: [value_counts] loses no row: the counts it lists add up to the
    number of values of the column, and every value it lists occurs at
    least once. *)
Theorem value_counts_total (col : list string) :
  sum_list (value_counts col).*2 = length col ∧
  Forall (fun c => c.1 ∈ col ∧ (0 < c.2)%nat) (value_counts col).
Proof.
  split.
  - rewrite value_counts_Permutation, <-list_fmap_compose.
    rewrite sum_list_fmap_with.
    rewrite (sum_list_with_pointwise _ (fun x => occurrences x col)) by done.
    apply sum_occurrences.
    + apply distinct_NoDup.
    + intros x Hx. apply distinct_elem_of. split; [done|]. apply not_elem_of_nil.
  - apply Forall_forall. intros c Hc.
    apply value_counts_elem_of in Hc as [Hin ->]. split; [done|].
    unfold occurrences. apply list_elem_of_lookup in Hin as [i Hi].
    assert (c.1 ∈ filter (fun y => y = c.1) col) as Hf.
    { apply list_elem_of_filter. split; [done|]. by eapply list_elem_of_lookup_2. }
    destruct (filter _ col); [by apply elem_of_nil in Hf|simpl; lia].
Qed.

(** X12: [paad_prefiltered_genes] holds at most 50 gene names, none
    twice; when the table has at most 50 distinct gene names it holds
    them all, and then the cut at 50 drops nothing. *)
Theorem paad_prefiltered_genes_all (df : frame) (col : list string) :
  df !! "Gene.refGene" = Some col →
  ∃ top, paad_prefiltered_genes df = Ok top ∧
         NoDup top ∧
         (length top ≤ top_n)%nat ∧
         ((size (list_to_set col : gset string) ≤ top_n)%nat →
          ∀ g, g ∈ col ↔ g ∈ top).
Proof.
  intros Hcol. eexists. split.
  { unfold paad_prefiltered_genes, getitem. rewrite Hcol. reflexivity. }
  split.
  { eapply sublist_NoDup; [|apply sublist_take].
    rewrite value_counts_index. apply distinct_NoDup. }
  split; [rewrite length_take; lia|].
  intros Hsize g. rewrite take_ge.
  - rewrite value_counts_index, distinct_elem_of. split; [|by intros [? _]].
    intros ?. split; [done|]. apply not_elem_of_nil.
  - by rewrite value_counts_index, distinct_size.
Qed.

Lemma paad_prefiltered_genes_all_witness :
  let col := ["TTN"; "DNAH5"; "TTN"; "SYNE2"] in
  let df : frame := <["Gene.refGene" := col]> ∅ in
  ∃ top, paad_prefiltered_genes df = Ok top ∧
         NoDup top ∧
         (length top ≤ top_n)%nat ∧
         ((size (list_to_set col : gset string) ≤ top_n)%nat →
          ∀ g, g ∈ col ↔ g ∈ top).
Proof.
  intros col df. apply (paad_prefiltered_genes_all df col). reflexivity.
Defined.

(** ** The amino-acid-change pass, continued *)

(** The matrix of the pass, written out. *)
Lemma consensus_explicit iter (df : frame) (aa fid : list string) :
  df !! "AAChange.refGene" = Some aa →
  df !! "final_id" = Some fid →
  let kept := series_ne aa "." in
  let muts := iter (list_to_set (take_mask kept aa)) in
  cosmic_common_consensus_df iter df =
  Ok (Matrix (Some "Case.ID") muts
        ((fun s => (s, (fun x =>
                          if bool_decide (x ∈ take_mask (series_eq (take_mask kept fid) s)
                                                        (take_mask kept aa))
                          then CInt 1 else CInt 0) <$> muts))
           <$> iter (list_to_set (take_mask kept fid)))).
Proof.
  intros Haa Hfid kept muts.
  set (sub := getitem_mask df kept).
  assert (sub !! "AAChange.refGene" = Some (take_mask kept aa)) as Haa'
    by (unfold sub; by rewrite getitem_mask_lookup, Haa).
  assert (sub !! "final_id" = Some (take_mask kept fid)) as Hfid'
    by (unfold sub; by rewrite getitem_mask_lookup, Hfid).
  pose proof (consensus_rows sub muts _ _ (iter (list_to_set (take_mask kept fid)))
                Hfid' Haa') as Hrows.
  unfold cosmic_common_consensus_df, getitem. rewrite Haa. simpl.
  fold kept. fold sub. rewrite Haa'. simpl. fold muts. rewrite Hfid'. simpl.
  rewrite for_each_consensus_body, Hrows. simpl.
  unfold set_index_name, DataFrame. simpl. by rewrite zip_fst_snd.
Qed.

(** X13: the pass raises [KeyError] when one of the two columns it reads
    is absent, on the amino-acid-change column first. *)
Theorem consensus_missing_column iter (df : frame) :
  df !! "AAChange.refGene" = None ∨ df !! "final_id" = None →
  cosmic_common_consensus_df iter df =
  Raise (KeyError match df !! "AAChange.refGene" with
                  | None => "AAChange.refGene"
                  | Some _ => "final_id"
                  end).
Proof.
  intros Hmiss. unfold cosmic_common_consensus_df, getitem.
  destruct (df !! "AAChange.refGene") as [aa|] eqn:Haa; [|done].
  destruct Hmiss as [?|Hfid]; [done|]. simpl.
  rewrite !getitem_mask_lookup, Haa, Hfid. done.
Qed.

Lemma consensus_missing_column_witness :
  cosmic_common_consensus_df elements (<["AAChange.refGene" := ["KRAS:p.G12D"]]> ∅) =
  Raise (KeyError "final_id").
Proof.
  rewrite (consensus_missing_column elements (<["AAChange.refGene" := ["KRAS:p.G12D"]]> ∅)).
  - vm_compute. reflexivity.
  - right. reflexivity.
Defined.

(** X14: the matrix of the pass has no empty row and no empty column
    (for a table whose two columns have the same length): every group
    listed has a 1 somewhere, and every amino-acid change listed is
    marked for some group. *)
Theorem consensus_no_empty_line iter (df : frame) (aa fid : list string) m :
  enumeration iter →
  df !! "AAChange.refGene" = Some aa →
  df !! "final_id" = Some fid →
  length aa = length fid →
  cosmic_common_consensus_df iter df = Ok m →
  (∀ r, r ∈ rows m → CInt 1 ∈ r.2) ∧
  (∀ (j : nat) x, columns m !! j = Some x →
                  ∃ r, r ∈ rows m ∧ r.2 !! j = Some (CInt 1)).
Proof.
  intros Hiter Haa Hfid Hlen Hm.
  rewrite (consensus_explicit iter df aa fid Haa Hfid) in Hm. injection Hm as <-.
  set (kept := series_ne aa ".").
  set (muts := iter (list_to_set (take_mask kept aa))).
  set (ids := iter (list_to_set (take_mask kept fid))).
  simpl.
  assert (∀ s x, (∃ i : nat, kept !! i = Some true ∧ fid !! i = Some s ∧ aa !! i = Some x) →
                 x ∈ take_mask (series_eq (take_mask kept fid) s) (take_mask kept aa))
    as Hmark.
  { intros s x Hi. apply take_mask_elem_of.
    apply (take_mask_aligned kept fid aa s x) in Hi as (k & Hk1 & Hk2).
    exists k. split; [|done]. by apply series_eq_lookup. }
  split.
  - intros r (s & -> & Hs)%list_elem_of_fmap. simpl.
    unfold ids in Hs. rewrite (proj2 (Hiter _)), elem_of_list_to_set in Hs.
    apply take_mask_elem_of in Hs as (i & Hk & Hs).
    pose proof Hk as Hk'. apply series_ne_lookup in Hk' as (x & Hx & Hne).
    apply list_elem_of_fmap. exists x. split.
    + rewrite bool_decide_eq_true_2; [done|]. apply Hmark. by exists i.
    + unfold muts. rewrite (proj2 (Hiter _)), elem_of_list_to_set.
      apply take_mask_elem_of. by exists i.
  - intros j x Hx.
    assert (x ∈ muts) as Hxm by (by eapply list_elem_of_lookup_2).
    unfold muts in Hxm. rewrite (proj2 (Hiter _)), elem_of_list_to_set in Hxm.
    apply take_mask_elem_of in Hxm as (i & Hk & Hxi).
    destruct (fid !! i) as [s|] eqn:Hs.
    2:{ apply lookup_ge_None in Hs. apply lookup_lt_Some in Hxi. lia. }
    eexists. split.
    + apply list_elem_of_fmap. exists s. split; [reflexivity|].
      unfold ids. rewrite (proj2 (Hiter _)), elem_of_list_to_set.
      apply take_mask_elem_of. by exists i.
    + simpl. rewrite list_lookup_fmap, Hx. simpl.
      rewrite bool_decide_eq_true_2; [done|]. apply Hmark. by exists i.
Qed.

Lemma consensus_no_empty_line_witness :
  let aa := ["KRAS:p.G12D"; "."; "TP53:p.R175H"] in
  let fid := ["008-M2-F0"; "008-M2-F0"; "019-F5"] in
  let df : frame := <["AAChange.refGene" := aa]> (<["final_id" := fid]> ∅) in
  ∃ m, cosmic_common_consensus_df elements df = Ok m ∧
       (∀ r, r ∈ rows m → CInt 1 ∈ r.2) ∧
       (∀ (j : nat) x, columns m !! j = Some x →
                       ∃ r, r ∈ rows m ∧ r.2 !! j = Some (CInt 1)).
Proof.
  intros aa fid df. eexists. split; [vm_compute; reflexivity|].
  apply (consensus_no_empty_line elements df aa fid).
  - exact enumeration_elements.
  - reflexivity.
  - reflexivity.
  - reflexivity.
  - vm_compute. reflexivity.
Defined.

(** X15: a table in which every amino-acid change is the sentinel gives
    the matrix without rows and without columns; the pass does not
    raise. *)
Theorem consensus_all_sentinel iter (df : frame) (aa fid : list string) :
  enumeration iter →
  df !! "AAChange.refGene" = Some aa →
  df !! "final_id" = Some fid →
  Forall (fun a => a = ".") aa →
  cosmic_common_consensus_df iter df = Ok (Matrix (Some "Case.ID") [] []).
Proof.
  intros Hiter Haa Hfid Hall.
  rewrite (consensus_explicit iter df aa fid Haa Hfid).
  assert (∀ X : gset string, (∀ x, x ∉ X) → iter X = []) as Hempty.
  { intros X HX. destruct (iter X) as [|x l] eqn:Hl; [done|].
    exfalso. apply (HX x). apply (proj2 (Hiter X)). rewrite Hl. by left. }
  assert (∀ (l : list string) x, x ∉ (list_to_set (take_mask (series_ne aa ".") l)
                                      : gset string)) as Hnone.
  { intros l x. rewrite elem_of_list_to_set, take_mask_elem_of.
    intros (i & (c & Hc & Hne)%series_ne_lookup & _).
    apply Hne. eapply Forall_lookup_1 in Hall; [|exact Hc]. done. }
  by rewrite !Hempty by apply Hnone.
Qed.

Lemma consensus_all_sentinel_witness :
  cosmic_common_consensus_df elements
    (<["AAChange.refGene" := ["."; "."]]> (<["final_id" := ["019-F0"; "019-F5"]]> ∅)) =
  Ok (Matrix (Some "Case.ID") [] []).
Proof.
  apply (consensus_all_sentinel elements _ ["."; "."] ["019-F0"; "019-F5"]).
  - exact enumeration_elements.
  - reflexivity.
  - reflexivity.
  - repeat constructor.
Defined.

(** ** The four cells together *)

(** X16: the four calls are run one after the other, and a failure ends
    the run where it occurs.  When the replicate directory is good and a
    file of the merged directory is not, the gene matrix of the
    replicates is the one file written: the two COSMIC matrices are not
    built, the one of the replicates included. *)
Theorem merged_failure_stops_run iter (cosmic_all_df : frame) genes rep mer f written :
  paad_genes cosmic_all_df = Ok genes →
  (∀ g, g ∈ rep → ¬ unusable genes false g) →
  f ∈ mer → unusable genes false f →
  ∃ m e, replicate_oncoprint_df cosmic_all_df (Some rep) = Ok m ∧
         builder_cells iter cosmic_all_df (Some rep) (Some mer) written =
           (<["results/oncoprint_replicates.tsv" := m]> written, Raise e).
Proof.
  intros Hgenes Hrep Hf Hbad.
  destruct (mapM_all_Ok (file_row genes replicate_strip_text false None) rep) as [rs Hrs].
  { intros g Hg. apply usable_file_row. by apply Hrep. }
  destruct (unusable_file_row genes merged_strip_text false None f Hbad) as [e0 He0].
  destruct (mapM_raises _ _ _ _ Hf He0) as [e He].
  apply process_variants_Raise in He.
  assert (replicate_oncoprint_df cosmic_all_df (Some rep) =
          Ok (Matrix (Some "Case.ID") genes (sort_rows rs))) as H1.
  { unfold replicate_oncoprint_df. rewrite Hgenes, Ok_bind.
    apply process_variants_Ok. by exists rs. }
  assert (merged_oncoprint_df cosmic_all_df (Some mer) = Raise e) as H2.
  { unfold merged_oncoprint_df. by rewrite Hgenes, Ok_bind. }
  eexists _, e. split; [exact H1|].
  unfold builder_cells, mbind, script_bind, compute, to_csv.
  by rewrite H1, H2.
Qed.

Lemma merged_failure_stops_run_witness :
  let cosmic_all_df : frame :=
    <["cosmic70" := ["ID=COSM1"]]> (<["Gene.refGene" := ["KRAS"]]> ∅) in
  let df : frame := <["cosmic70" := ["ID=COSM1"]]> (<["Gene.refGene" := ["KRAS"]]> ∅) in
  let rep := [VariantFile "A_001_processed_variants.tsv.bz2" (Ok df)] in
  let mer := [VariantFile "A_processed_variants.tsv.bz2" (Raise ParserError)] in
  ∃ m e, replicate_oncoprint_df cosmic_all_df (Some rep) = Ok m ∧
         builder_cells elements cosmic_all_df (Some rep) (Some mer) ∅ =
           (<["results/oncoprint_replicates.tsv" := m]> ∅, Raise e).
Proof.
  intros cosmic_all_df df rep mer.
  apply (merged_failure_stops_run elements cosmic_all_df ["KRAS"; "ATM"; "RNF43"]
           rep mer (VariantFile "A_processed_variants.tsv.bz2" (Raise ParserError)) ∅).
  - vm_compute. reflexivity.
  - intros g Hg%list_elem_of_singleton. subst g. unfold unusable. simpl.
    intros [H|(_ & _ & H)]; discriminate H.
  - left.
  - exact I.
Defined.
